(** * Token authentication of the timesheet backend (auth.py, dependencies.py)

    A shallow embedding of [AuthService]: the temporary-token store, the
    registry of active tokens, token minting and verification, login,
    refresh, revocation, the expiry sweep and the request dependency
    [get_current_user].

    Conventions.
    - A naive [datetime] is a number of microseconds since the epoch, and
      [datetime.utcnow()] is the instant itself. The host's local time is
      ahead of UTC by a fixed offset, a parameter: [datetime.fromtimestamp]
      and [datetime.timestamp] go through local time, [calendar.timegm]
      does not.
    - The range of [datetime] (the years 1 to 9999) is not modelled:
      arithmetic on instants never overflows, and [datetime.fromtimestamp]
      is defined on every integer. A statement about an arbitrary integer
      expiry assumes it representable.
    - A service call reads the clock at one instant [now]; the random
      string a call draws is an argument.
    - The two module-level dictionaries are the two fields of [stores]; a
      method is a function from the stores to an outcome and the stores it
      leaves behind, so that a raise keeps the mutations made before it.
    - The libraries the service calls (python-jose, passlib) are a type
      class; what is assumed of them is stated in the class. *)

From Stdlib Require Import ZArith String.
From stdpp Require Import gmap strings list fin_maps.

Local Open Scope string_scope.
Local Open Scope Z_scope.

(** ** Python values and exceptions *)

(** [datetime]: microseconds since the epoch. *)
Abbreviation datetime := Z.

Definition timedelta_minutes (m : Z) : Z := m * 60 * 1000000.
Definition timedelta_days (d : Z) : Z := d * 24 * 60 * 60 * 1000000.

(** [calendar.timegm(d.utctimetuple())]: the naive [d] read as UTC, whole
    seconds, microseconds dropped. *)
Definition timegm (d : datetime) : Z := d / 1000000.

(** [datetime.min] and [datetime.max]. *)
Definition datetime_min : datetime := -62135596800000000.
Definition datetime_max : datetime := 253402300799999999.
Definition representable (d : datetime) : Prop := datetime_min ≤ d ≤ datetime_max.

(** The values a claims dictionary holds. *)
Inductive pyval :=
  | PStr (s : string)
  | PInt (n : Z)
  | PDatetime (d : datetime).

#[global] Instance pyval_eq_dec : EqDecision pyval.
Proof. solve_decision. Defined.

#[global] Instance pyval_countable : Countable pyval :=
  inj_countable'
    (λ v, match v with
          | PStr s => inl s
          | PInt n => inr (inl n)
          | PDatetime d => inr (inr d)
          end)
    (λ x, match x with
          | inl s => PStr s
          | inr (inl n) => PInt n
          | inr (inr d) => PDatetime d
          end)
    (λ v, match v with PStr _ | PInt _ | PDatetime _ => eq_refl end).

(** A claims dictionary ([payload] in the source). *)
Abbreviation payload := (gmap string pyval).

(** [schemas.ErrorResponse]. *)
Record ErrorResponse := mkErrorResponse {
  e_detail : string;
  e_code : Z;
  e_timestamp : datetime }.

(** The [detail] of an [HTTPException]: a string, or the dictionary
    [ErrorResponse(...).dict()] of the three fields. *)
Inductive http_detail :=
  | detail_str (text : string)
  | detail_dict (fields : ErrorResponse).

#[global] Instance ErrorResponse_eq_dec : EqDecision ErrorResponse.
Proof. solve_decision. Defined.
#[global] Instance http_detail_eq_dec : EqDecision http_detail.
Proof. solve_decision. Defined.

Inductive exn :=
  | JWTError (msg : string)
  | HTTPException (status_code : Z) (detail : http_detail)
  | KeyError (key : string)
  | TypeError (msg : string)
  | ValidationError (field : string)
  | HashError (msg : string).

#[global] Instance exn_eq_dec : EqDecision exn.
Proof. solve_decision. Defined.

Inductive result (A : Type) :=
  | Ret (a : A)
  | Raise (e : exn).
Arguments Ret {A} a.
Arguments Raise {A} e.

#[global] Instance result_eq_dec `{EqDecision A} : EqDecision (result A).
Proof. solve_decision. Defined.

Definition is_http (status : Z) (e : exn) : bool :=
  match e with
  | HTTPException c _ => bool_decide (c = status)
  | _ => false
  end.

(** The status an exception stands for when it leaves a dependency or a
    handler: an [HTTPException] names its own, anything else is an unhandled
    error. *)
Definition response_status (e : exn) : Z :=
  match e with
  | HTTPException c _ => c
  | _ => 500
  end.

(** ** The libraries and the process environment *)

(** The libraries and the process environment of the service.

    python-jose: [jws_sign] is the compact serialisation signed with a key
    (HS256), [jwt_decode] is [jwt.decode(token, key, algorithms=[ALGORITHM])]
    called at the instant [now]; what it checks beyond the signature is the
    library's business, so nothing is assumed of it except that a token
    signed with the key it is decoded with either yields its claims or a
    [JWTError], and that a token signed with another key is a [JWTError]
    (signatures are not forged).
    passlib: [pwd_context_verify] is [pwd_context.verify].
    The two keys are read from the process environment.
    The host: its local time is [utcoffset] microseconds ahead of UTC
    (behind, when negative), the same for the life of the process.
    schemas.py: [ErrorResponse_timestamp] is the default of
    [ErrorResponse.timestamp], the [datetime.now()] evaluated once, when the
    class is defined. *)
Class Environment := {
  utcoffset : Z;
  ErrorResponse_timestamp : datetime;
  token : Type;
  token_eq_dec :: EqDecision token;
  token_countable :: Countable token;
  SECRET_KEY : string;
  REFRESH_SECRET_KEY : string;
  jws_sign : payload → string → token;
  jwt_decode : datetime → token → string → result payload;
  jwt_decode_sign : ∀ now claims key,
    jwt_decode now (jws_sign claims key) key = Ret claims ∨
    ∃ msg, jwt_decode now (jws_sign claims key) key = Raise (JWTError msg);
  jwt_decode_other_key : ∀ now claims key key',
    key ≠ key' →
    ∃ msg, jwt_decode now (jws_sign claims key) key' = Raise (JWTError msg);
  pwd_context_verify : string → string → result bool }.

(** [int(d.timestamp())]: the naive [d] read as local time, whole seconds,
    truncated towards zero. *)
Definition int_timestamp `{Environment} (d : datetime) : Z :=
  Z.quot (d - utcoffset) 1000000.
(** [datetime.fromtimestamp(n)] for an integer [n]: local time. *)
Definition fromtimestamp `{Environment} (n : Z) : datetime :=
  n * 1000000 + utcoffset.

(** [ErrorResponse(code=code, detail=detail).dict()]. *)
Definition ErrorResponse_dict `{Environment} (code : Z) (detail : string)
  : http_detail :=
  detail_dict (mkErrorResponse detail code ErrorResponse_timestamp).

(** ** schemas.py and model.py *)

Module schemas.

Record TokenData := mkTokenData {
  username : string;
  role : string;
  empid : Z }.

Record TempToken := mkTempToken {
  temp_token : string;
  expires_at : datetime }.

Record LoginRequest := mkLoginRequest {
  login_username : string;
  login_password : string;
  login_temp_token : string }.

Record Token `{Environment} := mkToken {
  access_token : token;
  refresh_token : token;
  token_type : string }.
Arguments mkToken {_} _ _ _.
Arguments access_token {_} _.
Arguments refresh_token {_} _.
Arguments token_type {_} _.

End schemas.

Module model.

(** The columns of [Employee] the service reads. *)
Record Employee := mkEmployee {
  empid : Z;
  username : string;
  password_hash : string;
  role : string }.

End model.

#[global] Instance TokenData_eq_dec : EqDecision schemas.TokenData.
Proof. solve_decision. Defined.

(** ** auth.py: configuration and the two stores *)

Definition ACCESS_TOKEN_EXPIRE_MINUTES : Z := 15.
Definition REFRESH_TOKEN_EXPIRE_DAYS : Z := 7.
Definition TEMP_TOKEN_EXPIRE_MINUTES : Z := 5.

(** A value of [temp_token_store]. *)
Record TempRecord := mkTempRecord {
  t_expires_at : datetime;
  t_used : bool;
  t_ip : string }.

(** A value of [active_tokens]. *)
Record ActiveRecord := mkActiveRecord {
  a_empid : Z;
  a_ip : string;
  a_exp : pyval;
  a_created_at : datetime }.

#[global] Instance TempRecord_eq_dec : EqDecision TempRecord.
Proof. solve_decision. Defined.
#[global] Instance ActiveRecord_eq_dec : EqDecision ActiveRecord.
Proof. solve_decision. Defined.

Record stores `{Environment} := mkStores {
  temp_token_store : gmap string TempRecord;
  active_tokens : gmap token ActiveRecord }.
Arguments mkStores {_} _ _.
Arguments temp_token_store {_} _.
Arguments active_tokens {_} _.

(** The stores at process start. *)
Definition startup `{Environment} : stores := mkStores ∅ ∅.

(** ** Outcomes *)

#[global] Instance result_ret : MRet result := λ A a, Ret a.
#[global] Instance result_bind : MBind result :=
  λ A B f r, match r with Ret a => f a | Raise e => Raise e end.

(** [try: body except JWTError as e: raise HTTPException(401, ...)], the
    detail being [ErrorResponse(code=401, detail=prefix + str(e)).dict()]. *)
Definition except_JWTError `{Environment} {A} (prefix : string) (body : result A)
  : result A :=
  match body with
  | Raise (JWTError msg) =>
      Raise (HTTPException 401 (ErrorResponse_dict 401 (prefix +:+ msg)))
  | r => r
  end.

(** A method of the service: an outcome and the stores left behind. *)
Definition M `{Environment} (A : Type) : Type := stores → result A * stores.

Definition retM `{Environment} {A} (a : A) : M A := λ s, (Ret a, s).
Definition raiseM `{Environment} {A} (e : exn) : M A := λ s, (Raise e, s).
Definition liftM `{Environment} {A} (r : result A) : M A := λ s, (r, s).
Definition bindM `{Environment} {A B} (m : M A) (k : A → M B) : M B :=
  λ s, match m s with
       | (Ret a, s') => k a s'
       | (Raise e, s') => (Raise e, s')
       end.

Declare Scope service_scope.
Delimit Scope service_scope with service.
Notation "'let*' x := m 'in' k" := (bindM m (λ x, k))
  (at level 10, x name, m at level 100, k at level 200) : service_scope.
Notation "m ;;; k" := (bindM m (λ _, k))
  (at level 100, k at level 200, right associativity) : service_scope.

(** ** class AuthService *)

Section AuthService.
Context `{Environment}.
Local Open Scope service_scope.

Definition temp_token_expiry : Z := timedelta_minutes TEMP_TOKEN_EXPIRE_MINUTES.
Definition refresh_token_expiry : Z := timedelta_days REFRESH_TOKEN_EXPIRE_DAYS.

(** [secrets.token_urlsafe(32)] is the argument [drawn]. *)
Definition create_temp_token (now : datetime) (drawn client_ip : string)
  : M schemas.TempToken := λ s,
  let expires_at := now + temp_token_expiry in
  (Ret (schemas.mkTempToken drawn expires_at),
   mkStores (<[drawn := mkTempRecord expires_at false client_ip]>
               (temp_token_store s))
            (active_tokens s)).

Definition verify_temp_token (now : datetime) (token client_ip : string)
  : M bool := λ s,
  match temp_token_store s !! token with
  | None => (Ret false, s)
  | Some token_data =>
      if now >? t_expires_at token_data then (Ret false, s)
      else if t_used token_data then (Ret false, s)
      else if bool_decide (t_ip token_data ≠ client_ip) then (Ret false, s)
      else (Ret true, s)
  end.

Definition mark_temp_token_used (token : string) : M unit := λ s,
  match temp_token_store s !! token with
  | Some token_data =>
      (Ret (),
       mkStores (<[token := mkTempRecord (t_expires_at token_data) true
                              (t_ip token_data)]> (temp_token_store s))
                (active_tokens s))
  | None => (Ret (), s)
  end.

(** [token_data.model_dump()]. *)
Definition model_dump (token_data : schemas.TokenData) : payload :=
  <["empid" := PInt (schemas.empid token_data)]>
    (<["role" := PStr (schemas.role token_data)]>
       (<["username" := PStr (schemas.username token_data)]> ∅)).

(** [jwt.encode]: python-jose first replaces, in the dictionary it is
    handed, a [datetime] under "exp", "iat" or "nbf" by its integer date,
    then signs. The dictionary as the call leaves it is returned with the
    token. *)
Definition intdate_claim (time_claim : string) (claims : payload) : payload :=
  match claims !! time_claim with
  | Some (PDatetime d) => <[time_claim := PInt (timegm d)]> claims
  | _ => claims
  end.

Definition jwt_encode (claims : payload) (key : string) : token * payload :=
  let claims := intdate_claim "nbf" (intdate_claim "iat" (intdate_claim "exp" claims)) in
  (jws_sign claims key, claims).

Definition access_payload (now : datetime) (token_data : schemas.TokenData)
    (client_ip : string) : payload :=
  let exp := now + timedelta_minutes ACCESS_TOKEN_EXPIRE_MINUTES in
  <["type" := PStr "access"]>
    (<["ip" := PStr client_ip]>
       (<["exp" := PInt (int_timestamp exp)]> (model_dump token_data))).

Definition create_access_token (now : datetime) (token_data : schemas.TokenData)
    (client_ip : string) : M token := λ s,
  let exp := now + timedelta_minutes ACCESS_TOKEN_EXPIRE_MINUTES in
  let payload := access_payload now token_data client_ip in
  let token := (jwt_encode payload SECRET_KEY).1 in
  (Ret token,
   mkStores (temp_token_store s)
            (<[token := mkActiveRecord (schemas.empid token_data) client_ip
                          (PInt (int_timestamp exp)) now]> (active_tokens s))).

Definition refresh_payload (now : datetime) (token_data : schemas.TokenData)
    (client_ip : string) : payload :=
  <["type" := PStr "refresh"]>
    (<["ip" := PStr client_ip]>
       (<["exp" := PDatetime (now + refresh_token_expiry)]>
          (model_dump token_data))).

(** The dictionary [create_refresh_token] signs, as [jwt.encode] leaves it. *)
Definition refresh_claims (now : datetime) (token_data : schemas.TokenData)
    (client_ip : string) : payload :=
  <["exp" := PInt (timegm (now + refresh_token_expiry))]>
    (refresh_payload now token_data client_ip).

Definition create_refresh_token (now : datetime) (token_data : schemas.TokenData)
    (client_ip : string) : M token := λ s,
  let '(token, payload) :=
    jwt_encode (refresh_payload now token_data client_ip) REFRESH_SECRET_KEY in
  match payload !! "exp" with
  | Some exp =>
      (Ret token,
       mkStores (temp_token_store s)
                (<[token := mkActiveRecord (schemas.empid token_data) client_ip
                              exp now]> (active_tokens s)))
  | None => (Raise (KeyError "exp"), s)
  end.

(** [datetime.fromtimestamp(v)] on a dictionary value. *)
Definition fromtimestamp_val (v : pyval) : result datetime :=
  match v with
  | PInt n => Ret (fromtimestamp n)
  | PStr _ => Raise (TypeError "an integer is required (got type str)")
  | PDatetime _ =>
      Raise (TypeError "an integer is required (got type datetime.datetime)")
  end.

Definition required_claims : list string := ["sub"; "role"; "empid"].

Definition _validate_token_payload (now : datetime) (payload : payload)
    (client_ip token_type : string) : result unit :=
  if bool_decide (payload !! "type" ≠ Some (PStr token_type))
  then Raise (JWTError "Invalid token type")
  else match payload !! "exp" with
       | None => Raise (KeyError "exp")
       | Some v =>
           exp ← fromtimestamp_val v;
           if now >? exp then Raise (JWTError "Token expired")
           else if bool_decide (payload !! "ip" ≠ Some (PStr client_ip))
           then Raise (JWTError "IP address changed")
           else if negb (forallb (λ claim, bool_decide (is_Some (payload !! claim)))
                           required_claims)
           then Raise (JWTError "Missing required claims")
           else Ret ()
       end.

(** [TokenData] built from the items of the payload whose key is one of
    its annotated fields: the three fields must be there with their declared
    types (the lax conversions of pydantic, such as a numeric string for
    [empid], are not modelled). *)
Definition TokenData_of_payload (payload : payload) : result schemas.TokenData :=
  match payload !! "username", payload !! "role", payload !! "empid" with
  | Some (PStr u), Some (PStr r), Some (PInt e) => Ret (schemas.mkTokenData u r e)
  | _, _, _ => Raise (ValidationError "TokenData")
  end.

Definition verify_access_token (now : datetime) (token : token)
    (client_ip : string) : M schemas.TokenData := λ s,
  match active_tokens s !! token with
  | None => (Raise (JWTError "Token not found or revoked"), s)
  | Some _ =>
      (except_JWTError "Invalid token: "
         (payload ← jwt_decode now token SECRET_KEY;
          _ ← _validate_token_payload now payload client_ip "access";
          TokenData_of_payload payload), s)
  end.

Definition verify_refresh_token (now : datetime) (token : token)
    (client_ip : string) : M schemas.TokenData := λ s,
  match active_tokens s !! token with
  | None => (Raise (JWTError "Token not found or revoked"), s)
  | Some _ =>
      (except_JWTError "Invalid refresh token: "
         (payload ← jwt_decode now token REFRESH_SECRET_KEY;
          _ ← _validate_token_payload now payload client_ip "refresh";
          TokenData_of_payload payload), s)
  end.

Definition verify_password (plain_password hashed_password : string)
  : result bool :=
  pwd_context_verify plain_password hashed_password.

(** [db] is the query [select(Employee).where(Employee.username == username)]
    followed by [first()]. *)
Definition authenticate_user (db : string → option model.Employee)
    (username password : string) : result schemas.TokenData :=
  match db username with
  | None => Raise (HTTPException 401 (ErrorResponse_dict 401 "Invalid credentials"))
  | Some user =>
      ok ← verify_password password (model.password_hash user);
      if negb ok then Raise
          (HTTPException 401 (ErrorResponse_dict 401 "Invalid credentials"))
      else Ret (schemas.mkTokenData (model.username user) (model.role user)
                  (model.empid user))
  end.

Definition login (now : datetime) (login_data : schemas.LoginRequest)
    (db : string → option model.Employee) (client_ip : string)
  : M schemas.Token :=
  let* valid := verify_temp_token now (schemas.login_temp_token login_data) client_ip in
  if negb valid
  then raiseM
      (HTTPException 401 (ErrorResponse_dict 401 "Invalid or expired temporary token"))
  else
    let* token_data :=
      liftM (authenticate_user db (schemas.login_username login_data)
               (schemas.login_password login_data)) in
    mark_temp_token_used (schemas.login_temp_token login_data) ;;;
    let* access_token := create_access_token now token_data client_ip in
    let* refresh_token := create_refresh_token now token_data client_ip in
    retM (schemas.mkToken access_token refresh_token "bearer").

(** The stores a successful login leaves. *)
Definition logged_in (now : datetime) (temp_token : string)
    (token_data : schemas.TokenData) (ip : string) (s : stores) : stores :=
  (create_refresh_token now token_data ip
     (create_access_token now token_data ip
        (mark_temp_token_used temp_token s).2).2).2.

Definition refresh_token (now : datetime) (refresh_token : token)
    (client_ip : string) : M schemas.Token :=
  let* token_data := verify_refresh_token now refresh_token client_ip in
  let* access_token := create_access_token now token_data client_ip in
  retM (schemas.mkToken access_token refresh_token "bearer").

(** One turn of the loop of [cleanup_expired_tokens]. *)
Definition expired_temp (now : datetime) (s : stores) : list string :=
  (filter (λ kv, t_expires_at kv.2 < now) (map_to_list (temp_token_store s))).*1.

Fixpoint expired_active (now : datetime) (items : list (token * ActiveRecord))
  : result (list token) :=
  match items with
  | [] => Ret []
  | (k, v) :: items =>
      exp ← fromtimestamp_val (a_exp v);
      rest ← expired_active now items;
      Ret (if exp <? now then k :: rest else rest)
  end.

Definition cleanup_pass (now : datetime) : M unit := λ s,
  let temp := foldl (λ m token, delete token m) (temp_token_store s)
                (expired_temp now s) in
  match expired_active now (map_to_list (active_tokens s)) with
  | Raise e => (Raise e, mkStores temp (active_tokens s))
  | Ret expired =>
      (Ret (),
       mkStores temp (foldl (λ m token, delete token m) (active_tokens s) expired))
  end.

(** The loop, run at the instants the task wakes up at. *)
Fixpoint cleanup_expired_tokens (wakeups : list datetime) : M unit :=
  match wakeups with
  | [] => retM ()
  | now :: later => cleanup_pass now ;;; cleanup_expired_tokens later
  end.

Definition revoke_token (token : token) : M bool := λ s,
  match active_tokens s !! token with
  | Some _ => (Ret true, mkStores (temp_token_store s) (delete token (active_tokens s)))
  | None => (Ret false, s)
  end.

(** What the dependencies read of a request. A cookie that is absent or
    empty is absent from [cookies]. *)
Record Request := mkRequest {
  cookies : gmap string token;
  client_host : string }.

Definition unauthenticated {A} : result A :=
  Raise (HTTPException 401 (ErrorResponse_dict 401 "Invalid or expired credentials")).

Definition get_current_user (now : datetime) (request : Request) (s : stores)
  : result schemas.TokenData * Request * stores :=
  match cookies request !! "access_token" with
  | None => (Raise
      (HTTPException 401 (ErrorResponse_dict 401 "Missing access token")), request, s)
  | Some token =>
      match verify_access_token now token (client_host request) s with
      | (Raise (HTTPException _ _), s) =>
          match cookies request !! "refresh_token" with
          | Some refresh =>
              match refresh_token now refresh (client_host request) s with
              | (Ret new_token, s) =>
                  let request :=
                    mkRequest (<["access_token" := schemas.access_token new_token]>
                                 (cookies request))
                              (client_host request) in
                  match verify_access_token now (schemas.access_token new_token)
                          (client_host request) s with
                  | (Raise (HTTPException _ _), s) => (unauthenticated, request, s)
                  | (r, s) => (r, request, s)
                  end
              | (Raise (HTTPException _ _), s) => (unauthenticated, request, s)
              | (Raise e, s) => (Raise e, request, s)
              end
          | None => (unauthenticated, request, s)
          end
      | (r, s) => (r, request, s)
      end
  end.

Definition require_role (required_role : string) (now : datetime)
    (request : Request) (s : stores)
  : result schemas.TokenData * Request * stores :=
  match get_current_user now request s with
  | (Ret current_user, request, s) =>
      if bool_decide (schemas.role current_user ≠ required_role)
      then (Raise
          (HTTPException 403
             (ErrorResponse_dict 403 "Insufficient permissions")), request, s)
      else (Ret current_user, request, s)
  | r => r
  end.

End AuthService.

Arguments Request {_}.
Arguments mkRequest {_} _ _.
Arguments cookies {_} _.
Arguments client_host {_} _.

(** ** dependencies.py *)

Module dependencies.
Section dependencies.
Context `{Environment}.

Definition get_current_user (now : datetime) (request : Request) (s : stores)
  : result schemas.TokenData * Request * stores :=
  match cookies request !! "access_token" with
  | None => (Raise (HTTPException 401 (detail_str "Missing access token")), request, s)
  | Some token =>
      match verify_access_token now token (client_host request) s with
      | (Raise (HTTPException _ _), s) =>
          match cookies request !! "refresh_token" with
          | Some refresh =>
              match refresh_token now refresh (client_host request) s with
              | (Ret new_token, s) =>
                  let request :=
                    mkRequest (<["access_token" := schemas.access_token new_token]>
                                 (cookies request))
                              (client_host request) in
                  match verify_access_token now (schemas.access_token new_token)
                          (client_host request) s with
                  | (Raise (HTTPException _ _), s) =>
                      (Raise
                          (HTTPException 401
                             (detail_str "Invalid or expired credentials")),
                       request, s)
                  | (r, s) => (r, request, s)
                  end
              | (Raise (HTTPException _ _), s) =>
                  (Raise
                      (HTTPException 401 (detail_str "Invalid or expired credentials")),
                   request, s)
              | (Raise e, s) => (Raise e, request, s)
              end
          | None =>
              (Raise (HTTPException 401 (detail_str "Invalid or expired credentials")),
               request, s)
          end
      | (r, s) => (r, request, s)
      end
  end.

Definition require_role (role : string) (now : datetime) (request : Request)
    (s : stores) : result schemas.TokenData * Request * stores :=
  match get_current_user now request s with
  | (Ret user, request, s) =>
      if bool_decide (schemas.role user ≠ role)
      then (Raise
          (HTTPException 403 (detail_str "Insufficient permissions")), request, s)
      else (Ret user, request, s)
  | r => r
  end.

End dependencies.
End dependencies.

(** The form dependencies.py raises in: the detail of an [HTTPException] is
    the bare string that auth.py wraps in an [ErrorResponse] dictionary. *)
Definition bare_detail (e : exn) : exn :=
  match e with
  | HTTPException status_code (detail_dict fields) =>
      HTTPException status_code (detail_str (e_detail fields))
  | e => e
  end.

(** ** auth.py: the cookies of a response *)

(** One [response.set_cookie(...)]: a response is the list of the cookies
    set on it, in order. *)
Record SetCookie `{Environment} := mkSetCookie {
  cookie_key : string;
  cookie_value : token;
  cookie_httponly : bool;
  cookie_secure : bool;
  cookie_samesite : string;
  cookie_max_age : Z }.
Arguments mkSetCookie {_} _ _ _ _ _ _.
Arguments cookie_key {_} _.
Arguments cookie_value {_} _.
Arguments cookie_httponly {_} _.
Arguments cookie_secure {_} _.
Arguments cookie_samesite {_} _.
Arguments cookie_max_age {_} _.

Definition set_auth_cookies `{Environment} (response : list SetCookie)
    (token : schemas.Token) : list SetCookie :=
  response
  ++ [mkSetCookie "access_token" (schemas.access_token token) true true "Strict"
        (ACCESS_TOKEN_EXPIRE_MINUTES * 60)]
  ++ [mkSetCookie "refresh_token" (schemas.refresh_token token) true true "Strict"
        (REFRESH_TOKEN_EXPIRE_DAYS * 24 * 60 * 60)].

(** ** main.py *)

Module main.
Section main.
Context `{Environment}.

Definition PUBLIC_PATHS : list string :=
  ["/"; "/login"; "/auth/login"; "/auth/refresh"; "/static"].

(** What the middleware answers: the response of the rest of the
    application ([call_next]), reached with [request.state.user] set or not
    and with the three security headers added or not; a redirect to the
    requested URL carrying cookies; the redirect to the login page with a
    temporary token and the requested URL as [next]. *)
Inductive response :=
  | call_next (user : option schemas.TokenData) (security_headers : bool)
  | RedirectResponse (url : string) (set_cookies : list SetCookie)
  | redirect_to_login (temp_token next : string).

(** [path] is [request.url.path], [url] is [str(request.url)]; the rest of
    the application answers, it does not raise into the middleware. *)
Definition security_middleware (now : datetime) (drawn path url : string)
    (request : Request) (s : stores) : result response * stores :=
  if existsb (λ public, String.prefix public path) PUBLIC_PATHS
  then (Ret (call_next None false), s)
  else
    let client_ip := client_host request in
    let login_redirect (s : stores) : result response * stores :=
      match create_temp_token now drawn client_ip s with
      | (Ret temp_token, s) =>
          (Ret (redirect_to_login (schemas.temp_token temp_token) url), s)
      | (Raise e, s) => (Raise e, s)
      end in
    match cookies request !! "access_token" with
    | Some token =>
        match verify_access_token now token client_ip s with
        | (Ret token_data, s) => (Ret (call_next (Some token_data) true), s)
        | (Raise (HTTPException status_code _), s) =>
            if bool_decide (status_code = 401) then
              match cookies request !! "refresh_token" with
              | Some refresh =>
                  match refresh_token now refresh client_ip s with
                  | (Ret new_tokens, s) =>
                      (Ret (RedirectResponse url (set_auth_cookies [] new_tokens)), s)
                  | (Raise (HTTPException _ _), s) => login_redirect s
                  | (Raise e, s) => (Raise e, s)
                  end
              | None => login_redirect s
              end
            else login_redirect s
        | (Raise e, s) => (Raise e, s)
        end
    | None => login_redirect s
    end.

(** The login page: the template is rendered with the temporary token. *)
Definition login_page (now : datetime) (drawn : string) (request : Request)
  : M string := λ s,
  match create_temp_token now drawn (client_host request) s with
  | (Ret temp_token, s) => (Ret (schemas.temp_token temp_token), s)
  | (Raise e, s) => (Raise e, s)
  end.

(** A value of [password_reset_data], keyed by e-mail address. *)
Record ResetRecord := mkResetRecord {
  r_otp : string;
  r_expires_at : datetime;
  r_ip : string }.

(** The context the template forgot_password.html is rendered with (the
    request apart); an absent key is [None] or [false]. *)
Record ResetPage := mkResetPage {
  page_email : option string;
  page_otp : option string;
  page_show_otp : bool;
  page_show_password : bool;
  page_error : option string;
  page_message : option string;
  page_success : bool }.

Inductive reset_outcome :=
  | TemplateResponse (context : ResetPage)
  | AttributeError.

(** Truth value of an optional form field: [None] and the empty string are
    false. *)
Definition given (field : option string) : bool :=
  match field with
  | Some text => negb (String.eqb text "")
  | None => false
  end.

(** [drawn] is the six digits [random.choices] returns. The last step
    evaluates [db.query(auth_service.Employee)]: [auth_service] is the
    [AuthService] instance, which has no attribute [Employee], so the
    expression raises [AttributeError] whatever [db] is. *)
Definition handle_password_reset (now : datetime) (drawn client_ip email : string)
    (otp new_password confirm_password : option string)
    (password_reset_data : gmap string ResetRecord)
  : reset_outcome * gmap string ResetRecord :=
  if negb (given otp) && negb (given new_password) then
    (TemplateResponse
       (mkResetPage (Some email) None true false None
          (Some ("OTP sent to " +:+ email +:+ " (check console for local testing)"))
          false),
     <[email := mkResetRecord drawn (now + timedelta_minutes 10) client_ip]>
       password_reset_data)
  else if given otp && negb (given new_password) then
    match password_reset_data !! email with
    | None =>
        (TemplateResponse
           (mkResetPage (Some email) None true false
              (Some "Invalid request. Please start over.") None false),
         password_reset_data)
    | Some stored_data =>
        if now >? r_expires_at stored_data then
          (TemplateResponse
             (mkResetPage (Some email) None true false
                (Some "OTP has expired. Please request a new one.") None false),
           password_reset_data)
        else if bool_decide (Some (r_otp stored_data) ≠ otp) then
          (TemplateResponse
             (mkResetPage (Some email) None true false
                (Some "Invalid OTP. Please try again.") None false),
           password_reset_data)
        else
          (TemplateResponse
             (mkResetPage (Some email) otp false true None
                (Some "OTP verified. Please enter your new password.") false),
           password_reset_data)
    end
  else if given new_password && given confirm_password then
    if bool_decide (new_password ≠ confirm_password) then
      (TemplateResponse
         (mkResetPage (Some email) otp false true (Some "Passwords do not match.")
            None false),
       password_reset_data)
    else
      (AttributeError, password_reset_data)
  else
    (TemplateResponse
       (mkResetPage None None false false
          (Some "Invalid request. Please start over.") None false),
     password_reset_data).

End main.

Arguments response {_}.
Arguments call_next {_} _ _.
Arguments RedirectResponse {_} _ _.
Arguments redirect_to_login {_} _ _.

End main.

(** ** The calls the application makes, and the stores it can be in *)

Inductive call `{Environment} :=
  | CreateTempToken (now : datetime) (drawn client_ip : string)
  | VerifyTempToken (now : datetime) (token client_ip : string)
  | MarkTempTokenUsed (token : string)
  | CreateAccessToken (now : datetime) (token_data : schemas.TokenData)
      (client_ip : string)
  | CreateRefreshToken (now : datetime) (token_data : schemas.TokenData)
      (client_ip : string)
  | VerifyAccessToken (now : datetime) (token : token) (client_ip : string)
  | VerifyRefreshToken (now : datetime) (token : token) (client_ip : string)
  | Login (now : datetime) (login_data : schemas.LoginRequest)
      (db : string → option model.Employee) (client_ip : string)
  | RefreshToken (now : datetime) (token : token) (client_ip : string)
  | CleanupPass (now : datetime)
  | RevokeToken (token : token)
  | GetCurrentUser (now : datetime) (request : Request).

(** The stores a call leaves behind, whatever its outcome. *)
Definition after `{Environment} (c : call) (s : stores) : stores :=
  match c with
  | CreateTempToken now drawn ip => (create_temp_token now drawn ip s).2
  | VerifyTempToken now token ip => (verify_temp_token now token ip s).2
  | MarkTempTokenUsed token => (mark_temp_token_used token s).2
  | CreateAccessToken now td ip => (create_access_token now td ip s).2
  | CreateRefreshToken now td ip => (create_refresh_token now td ip s).2
  | VerifyAccessToken now token ip => (verify_access_token now token ip s).2
  | VerifyRefreshToken now token ip => (verify_refresh_token now token ip s).2
  | Login now login_data db ip => (login now login_data db ip s).2
  | RefreshToken now token ip => (refresh_token now token ip s).2
  | CleanupPass now => (cleanup_pass now s).2
  | RevokeToken token => (revoke_token token s).2
  | GetCurrentUser now request => (get_current_user now request s).2
  end.

Inductive reachable `{Environment} : stores → Prop :=
  | reachable_startup : reachable startup
  | reachable_call c s : reachable s → reachable (after c s).

(** Every entry of the registry records its expiry as an integer. *)
Definition integer_expiries `{Environment} (s : stores) : Prop :=
  ∀ token entry, active_tokens s !! token = Some entry →
    ∃ n, a_exp entry = PInt n.

(** Every entry of the registry is keyed by a token the service minted and
    records the expiry that token was minted with. *)
Definition minted_entry `{Environment} (token : token) (entry : ActiveRecord) : Prop :=
  ∃ now token_data ip,
    (token = jws_sign (access_payload now token_data ip) SECRET_KEY
     ∧ a_exp entry
       = PInt (int_timestamp (now + timedelta_minutes ACCESS_TOKEN_EXPIRE_MINUTES)))
    ∨ (token = jws_sign (refresh_claims now token_data ip) REFRESH_SECRET_KEY
       ∧ a_exp entry = PInt (timegm (now + refresh_token_expiry))).

Definition minted_registry `{Environment} (s : stores) : Prop :=
  ∀ token entry, active_tokens s !! token = Some entry → minted_entry token entry.

(** The entry the sweep removes. *)
Definition temp_expired (now : datetime) (entry : TempRecord) : Prop :=
  t_expires_at entry < now.
Definition active_expired `{Environment} (now : datetime) (entry : ActiveRecord)
  : Prop :=
  ∃ n, a_exp entry = PInt n ∧ fromtimestamp n < now.

(** ** An executable environment

    Tokens are terms: a claims dictionary signed with a key, or any other
    text. Decoding follows python-jose with its default options: the
    signature, then the expiry claim against the clock in whole seconds.
    The password context recognises the bcrypt prefix; the digest of a
    password is stood for by the password itself. *)

Module symbolic.

Inductive jwt :=
  | Signed (claims : payload) (key : string)
  | Opaque (text : string).

#[global] Instance jwt_eq_dec : EqDecision jwt.
Proof. solve_decision. Defined.

#[global] Instance jwt_countable : Countable jwt :=
  inj_countable'
    (λ t, match t with
          | Signed claims key => inl (claims, key)
          | Opaque text => inr text
          end)
    (λ x, match x with
          | inl (claims, key) => Signed claims key
          | inr text => Opaque text
          end)
    (λ t, match t with Signed _ _ | Opaque _ => eq_refl end).

Definition decode (now : datetime) (t : jwt) (key : string) : result payload :=
  match t with
  | Opaque _ => Raise (JWTError "Not enough segments")
  | Signed claims k =>
      if bool_decide (k = key) then
        match claims !! "exp" with
        | Some (PInt exp) =>
            if exp <? timegm now then Raise (JWTError "Signature has expired.")
            else Ret claims
        | Some _ =>
            Raise (JWTError "Expiration Time claim (exp) must be an integer.")
        | None => Ret claims
        end
      else Raise (JWTError "Signature verification failed.")
  end.

Definition bcrypt_verify (secret hash : string) : result bool :=
  if String.prefix "$2b$" hash
  then Ret (bool_decide (hash = "$2b$" +:+ secret))
  else Raise (HashError "hash could not be identified").

(** The environment of a host [offset] microseconds ahead of UTC, with the
    keys the source defaults to. *)
Definition host (offset : Z) : Environment.
Proof.
  refine {|
    utcoffset := offset;
    ErrorResponse_timestamp := 1699999000000000 + offset;
    token := jwt;
    SECRET_KEY := "your-strong-secret-key";
    REFRESH_SECRET_KEY := "your-refresh-secret-key";
    jws_sign := Signed;
    jwt_decode := decode;
    jwt_decode_sign := _;
    jwt_decode_other_key := _;
    pwd_context_verify := bcrypt_verify |}.
  - abstract (intros now claims key; unfold decode;
              rewrite bool_decide_eq_true_2 by done;
              destruct (claims !! "exp") as [[| exp |]|]; eauto;
              destruct (exp <? timegm now); eauto).
  - abstract (intros now claims key key' Hne; unfold decode;
              rewrite bool_decide_eq_false_2 by done; eauto).
Defined.

(** A host on UTC. *)
#[global] Instance env : Environment := host 0.

End symbolic.

(** ** The validation routine (section 4.2 of the specification)

    The routine as the specification words it: four checks, each with the
    failure it reports, tried in a fixed order. *)

Fixpoint first_failure (checks : list (bool * string)) : result unit :=
  match checks with
  | [] => Ret ()
  | (failed, msg) :: checks =>
      if failed then Raise (JWTError msg) else first_failure checks
  end.

Definition four_checks `{Environment} (now : datetime) (claims : payload)
    (exp : Z) (bound_ip expected_kind : string) : list (bool * string) :=
  [ (bool_decide (claims !! "type" ≠ Some (PStr expected_kind)), "Invalid token type");
    (bool_decide (now > fromtimestamp exp), "Token expired");
    (bool_decide (claims !! "ip" ≠ Some (PStr bound_ip)), "IP address changed");
    (bool_decide (¬ (is_Some (claims !! "sub") ∧ is_Some (claims !! "role")
                     ∧ is_Some (claims !! "empid"))),
     "Missing required claims") ].

(** ** A small deployment, for the examples *)

Module example.
Import symbolic.

(** 2023-11-14 22:13:20 UTC. *)
Definition t0 : datetime := 1700000000000000.
Definition second : Z := 1000000.

(** A host eight hours west of UTC. *)
Definition west : Environment := host (-8 * 3600 * second).

Definition office : string := "10.0.0.1".
Definition cafe : string := "192.0.2.9".

Definition alice : model.Employee :=
  model.mkEmployee 7 "alice" "$2b$correct horse" "admin".
Definition mallory : model.Employee :=
  model.mkEmployee 8 "mallory" "imported-from-legacy-system" "employee".

Definition db (username : string) : option model.Employee :=
  if bool_decide (username = "alice") then Some alice
  else if bool_decide (username = "mallory") then Some mallory
  else None.

Definition alice_data : schemas.TokenData := schemas.mkTokenData "alice" "admin" 7.

Definition temp : string := "drawn-temp-token".

(** The login page was served to the office at [t0]. *)
Definition page_served : stores := (create_temp_token t0 temp office startup).2.

Definition good_login : schemas.LoginRequest :=
  schemas.mkLoginRequest "alice" "correct horse" temp.
Definition bad_login : schemas.LoginRequest :=
  schemas.mkLoginRequest "alice" "battery staple" temp.
Definition legacy_login : schemas.LoginRequest :=
  schemas.mkLoginRequest "mallory" "anything" temp.

(** Alice logged in one second later. *)
Definition session_tokens : schemas.Token :=
  schemas.mkToken
    (Signed (access_payload (t0 + second) alice_data office) SECRET_KEY)
    (Signed (refresh_claims (t0 + second) alice_data office) REFRESH_SECRET_KEY)
    "bearer".
Definition signed_in : stores :=
  logged_in (t0 + second) temp alice_data office page_served.

(** Claims that fail all four checks of the routine for an access token
    presented from the office at [t0]. *)
Definition stale_claims : payload :=
  <["type" := PStr "refresh"]>
    (<["ip" := PStr cafe]> (<["exp" := PInt 1600000000]> ∅)).

(** Alice's request, carrying both cookies. *)
Definition request : Request :=
  mkRequest
    (<["refresh_token" := schemas.refresh_token session_tokens]>
       (<["access_token" := schemas.access_token session_tokens]> ∅))
    office.

(** Her access token was then revoked. *)
Definition signed_out : stores :=
  (revoke_token (schemas.access_token session_tokens) signed_in).2.

(** A registry entry that records its expiry as the [datetime] itself. *)
Definition datetime_registry : stores :=
  mkStores ∅
    (<[schemas.refresh_token session_tokens :=
         mkActiveRecord 7 office (PDatetime (t0 + second + refresh_token_expiry))
           (t0 + second)]> ∅).

End example.

(** * Properties *)

Lemma pair_from_projections {A B} (p : A * B) a b :
  p.1 = a → p.2 = b → p = (a, b).
Proof. destruct p. simpl. congruence. Qed.

Section validation.
Context `{Environment}.

Lemma verify_access_token_stores now token ip s :
  (verify_access_token now token ip s).2 = s.
Proof. unfold verify_access_token. by case_match. Qed.

Lemma verify_refresh_token_stores now token ip s :
  (verify_refresh_token now token ip s).2 = s.
Proof. unfold verify_refresh_token. by case_match. Qed.

Lemma required_claims_present (claims : payload) :
  forallb (λ claim, bool_decide (is_Some (claims !! claim))) required_claims = true
  ↔ is_Some (claims !! "sub") ∧ is_Some (claims !! "role")
    ∧ is_Some (claims !! "empid").
Proof.
  unfold required_claims. simpl.
  rewrite !andb_true_iff, !bool_decide_eq_true. tauto.
Qed.

Lemma validate_as_specified now (claims : payload) exp bound_ip expected_kind :
  claims !! "exp" = Some (PInt exp) →
  _validate_token_payload now claims bound_ip expected_kind
  = first_failure (four_checks now claims exp bound_ip expected_kind).
Proof.
  intros Hexp. unfold _validate_token_payload, four_checks. rewrite Hexp.
  pose proof (required_claims_present claims) as Hreq.
  destruct (forallb _ required_claims); simpl.
  - rewrite (bool_decide_eq_false_2
               (¬ (is_Some (claims !! "sub") ∧ is_Some (claims !! "role")
                   ∧ is_Some (claims !! "empid"))))
      by (intros Hn; by apply Hn, Hreq).
    destruct (bool_decide (claims !! "type" ≠ Some (PStr expected_kind))); [done|].
    destruct (Z.gtb_spec now (fromtimestamp exp)).
    + by rewrite (bool_decide_eq_true_2 (now > fromtimestamp exp)) by lia.
    + by rewrite (bool_decide_eq_false_2 (now > fromtimestamp exp)) by lia.
  - rewrite (bool_decide_eq_true_2
               (¬ (is_Some (claims !! "sub") ∧ is_Some (claims !! "role")
                   ∧ is_Some (claims !! "empid"))))
      by (intros Hp; apply Hreq in Hp; congruence).
    destruct (bool_decide (claims !! "type" ≠ Some (PStr expected_kind))); [done|].
    destruct (Z.gtb_spec now (fromtimestamp exp)).
    + by rewrite (bool_decide_eq_true_2 (now > fromtimestamp exp)) by lia.
    + by rewrite (bool_decide_eq_false_2 (now > fromtimestamp exp)) by lia.
Qed.

End validation.

(** ** Minted tokens *)

Section minted.
Context `{Environment}.

Lemma model_dump_sub token_data : model_dump token_data !! "sub" = None.
Proof. unfold model_dump. by simplify_map_eq. Qed.

Lemma access_payload_sub now token_data ip :
  access_payload now token_data ip !! "sub" = None.
Proof. unfold access_payload, model_dump. by simplify_map_eq. Qed.

Lemma access_payload_exp now token_data ip :
  access_payload now token_data ip !! "exp"
  = Some (PInt (int_timestamp (now + timedelta_minutes ACCESS_TOKEN_EXPIRE_MINUTES))).
Proof. unfold access_payload. by simplify_map_eq. Qed.

Lemma jwt_encode_access now token_data ip key :
  jwt_encode (access_payload now token_data ip) key
  = (jws_sign (access_payload now token_data ip) key,
     access_payload now token_data ip).
Proof.
  unfold jwt_encode, intdate_claim.
  rewrite access_payload_exp.
  unfold access_payload, model_dump. by simplify_map_eq.
Qed.

Lemma jwt_encode_refresh now token_data ip key :
  jwt_encode (refresh_payload now token_data ip) key
  = (jws_sign (refresh_claims now token_data ip) key,
     refresh_claims now token_data ip).
Proof.
  unfold jwt_encode, intdate_claim, refresh_claims.
  replace (refresh_payload now token_data ip !! "exp")
    with (Some (PDatetime (now + refresh_token_expiry)))
    by (unfold refresh_payload; by simplify_map_eq).
  unfold refresh_payload, model_dump. by simplify_map_eq.
Qed.

Lemma refresh_claims_exp now token_data ip :
  refresh_claims now token_data ip !! "exp"
  = Some (PInt (timegm (now + refresh_token_expiry))).
Proof. unfold refresh_claims. by simplify_map_eq. Qed.

Lemma refresh_claims_sub now token_data ip :
  refresh_claims now token_data ip !! "sub" = None.
Proof. unfold refresh_claims, refresh_payload, model_dump. by simplify_map_eq. Qed.

Lemma create_access_token_eq now token_data ip s :
  create_access_token now token_data ip s
  = (Ret (jws_sign (access_payload now token_data ip) SECRET_KEY),
     mkStores (temp_token_store s)
       (<[jws_sign (access_payload now token_data ip) SECRET_KEY :=
            mkActiveRecord (schemas.empid token_data) ip
              (PInt (int_timestamp
                       (now + timedelta_minutes ACCESS_TOKEN_EXPIRE_MINUTES)))
              now]> (active_tokens s))).
Proof. unfold create_access_token. by rewrite jwt_encode_access. Qed.

Lemma create_refresh_token_eq now token_data ip s :
  create_refresh_token now token_data ip s
  = (Ret (jws_sign (refresh_claims now token_data ip) REFRESH_SECRET_KEY),
     mkStores (temp_token_store s)
       (<[jws_sign (refresh_claims now token_data ip) REFRESH_SECRET_KEY :=
            mkActiveRecord (schemas.empid token_data) ip
              (PInt (timegm (now + refresh_token_expiry))) now]>
          (active_tokens s))).
Proof.
  unfold create_refresh_token.
  by rewrite jwt_encode_refresh, refresh_claims_exp.
Qed.

(** X18. The identity claims themselves come back from either payload as
    they went in: what refuses a minted token is the routine, not the
    codec. *)
Lemma token_data_round_trip now token_data ip :
  TokenData_of_payload (access_payload now token_data ip) = Ret token_data
  ∧ TokenData_of_payload (refresh_claims now token_data ip) = Ret token_data.
Proof.
  destruct token_data as [u r e].
  unfold TokenData_of_payload, access_payload, refresh_claims, refresh_payload,
    model_dump.
  by simplify_map_eq.
Qed.

(** A dictionary without "sub" never passes the routine. *)
Lemma validate_without_sub now (claims : payload) exp ip kind :
  claims !! "exp" = Some (PInt exp) →
  claims !! "sub" = None →
  ∃ msg, _validate_token_payload now claims ip kind = Raise (JWTError msg).
Proof.
  intros Hexp Hsub. rewrite (validate_as_specified _ _ exp) by done.
  unfold four_checks. simpl.
  repeat (case_match; [eauto|]).
  exfalso. match goal with Hb : bool_decide _ = false |- _ =>
    apply bool_decide_eq_false in Hb; apply Hb end.
  intros ([? Hs] & _). congruence.
Qed.

Lemma verify_signed_without_sub now (claims : payload) exp key ip kind prefix :
  claims !! "exp" = Some (PInt exp) →
  claims !! "sub" = None →
  ∃ detail,
    except_JWTError prefix
      (payload ← jwt_decode now (jws_sign claims key) key;
       _ ← _validate_token_payload now payload ip kind;
       TokenData_of_payload payload)
    = Raise (HTTPException 401 detail).
Proof.
  intros Hexp Hsub.
  destruct (jwt_decode_sign now claims key) as [-> | [msg ->]]; simpl; [|eauto].
  destruct (validate_without_sub now claims exp ip kind) as [msg ->]; eauto.
Qed.

End minted.

(** ** Login and refresh, step by step *)

Section login.
Context `{Environment}.

Lemma verify_temp_token_pure now token ip s :
  (verify_temp_token now token ip s).2 = s.
Proof. unfold verify_temp_token. repeat case_match; done. Qed.

Lemma verify_temp_token_true now token ip s :
  verify_temp_token now token ip s = (Ret true, s)
  ↔ ∃ r, temp_token_store s !! token = Some r ∧ ¬ now > t_expires_at r
         ∧ t_used r = false ∧ t_ip r = ip.
Proof.
  unfold verify_temp_token. split.
  - destruct (temp_token_store s !! token) as [r|]; [|done].
    destruct (Z.gtb_spec now (t_expires_at r)); [done|].
    destruct (t_used r) eqn:?; [done|].
    case_bool_decide as Hip; [done|].
    intros _. exists r. split_and!; [done|lia|done|].
    by destruct (decide (t_ip r = ip)).
  - intros (r & -> & Hexp & -> & Hip).
    destruct (Z.gtb_spec now (t_expires_at r)); [lia|].
    by rewrite bool_decide_eq_false_2 by (intros Hne; by apply Hne).
Qed.

Lemma verify_temp_token_total now token ip s :
  ∃ b, verify_temp_token now token ip s = (Ret b, s).
Proof. unfold verify_temp_token. repeat case_match; eauto. Qed.

Lemma login_accepted now login_data db ip s token_data :
  verify_temp_token now (schemas.login_temp_token login_data) ip s = (Ret true, s) →
  authenticate_user db (schemas.login_username login_data)
    (schemas.login_password login_data) = Ret token_data →
  login now login_data db ip s
  = (Ret (schemas.mkToken
            (jws_sign (access_payload now token_data ip) SECRET_KEY)
            (jws_sign (refresh_claims now token_data ip) REFRESH_SECRET_KEY)
            "bearer"),
     logged_in now (schemas.login_temp_token login_data) token_data ip s).
Proof.
  intros Htemp Hauth. unfold login, logged_in, bindM, liftM, retM.
  rewrite Htemp. cbn [negb]. rewrite Hauth.
  assert (∃ s1, mark_temp_token_used (schemas.login_temp_token login_data) s
                = (Ret (), s1)) as [s1 Hmark].
  { unfold mark_temp_token_used. case_match; eauto. }
  rewrite Hmark. cbn [snd].
  rewrite !create_access_token_eq. cbn [snd].
  by rewrite !create_refresh_token_eq.
Qed.

Lemma login_rejected_credentials now login_data db ip s e :
  verify_temp_token now (schemas.login_temp_token login_data) ip s = (Ret true, s) →
  authenticate_user db (schemas.login_username login_data)
    (schemas.login_password login_data) = Raise e →
  login now login_data db ip s = (Raise e, s).
Proof.
  intros Htemp Hauth. unfold login, bindM, liftM.
  rewrite Htemp. cbn [negb]. by rewrite Hauth.
Qed.

Lemma login_rejected_temp_token now login_data db ip s :
  verify_temp_token now (schemas.login_temp_token login_data) ip s = (Ret false, s) →
  login now login_data db ip s
  = (Raise
      (HTTPException 401
         (ErrorResponse_dict 401 "Invalid or expired temporary token")), s).
Proof. intros Htemp. unfold login, bindM. by rewrite Htemp. Qed.

Lemma login_Ret_inv now login_data db ip s tokens s' :
  login now login_data db ip s = (Ret tokens, s') →
  ∃ token_data,
    verify_temp_token now (schemas.login_temp_token login_data) ip s = (Ret true, s)
    ∧ authenticate_user db (schemas.login_username login_data)
        (schemas.login_password login_data) = Ret token_data
    ∧ tokens = schemas.mkToken
                 (jws_sign (access_payload now token_data ip) SECRET_KEY)
                 (jws_sign (refresh_claims now token_data ip) REFRESH_SECRET_KEY)
                 "bearer"
    ∧ s' = logged_in now (schemas.login_temp_token login_data) token_data ip s.
Proof.
  intros Hlogin.
  destruct (verify_temp_token_total now (schemas.login_temp_token login_data) ip s)
    as [[] Htemp].
  - destruct (authenticate_user db (schemas.login_username login_data)
                (schemas.login_password login_data)) as [token_data|e] eqn:Hauth.
    + rewrite (login_accepted _ _ _ _ _ token_data) in Hlogin by done.
      exists token_data. by simplify_eq.
    + by rewrite (login_rejected_credentials _ _ _ _ _ e) in Hlogin.
  - by rewrite login_rejected_temp_token in Hlogin.
Qed.

End login.

(** ** Issued tokens against verification *)

Section issued.
Context `{Environment}.

(** C1 (the code departs from the claim). A token minted and registered
    by [create_access_token] is never accepted by [verify_access_token]:
    whatever the address and the instant of the check, the call raises an
    [HTTPException] with status 401 and returns no [TokenData]. The claims
    are dumped under "username", the routine requires "sub". *)
Theorem fresh_access_token_is_rejected now token_data ip s now' ip' :
  ∃ token s',
    create_access_token now token_data ip s = (Ret token, s')
    ∧ is_Some (active_tokens s' !! token)
    ∧ ∃ detail,
        verify_access_token now' token ip' s'
        = (Raise (HTTPException 401 detail), s').
Proof.
  rewrite create_access_token_eq. eexists _, _. split; [done|].
  unfold verify_access_token. cbn [active_tokens].
  rewrite lookup_insert_eq. split; [eauto|].
  edestruct (verify_signed_without_sub now' (access_payload now token_data ip))
    as [detail ->]; eauto using access_payload_exp, access_payload_sub.
Qed.

(** C8 (the code departs from the claim). The refresh token a successful
    login returns is registered, and [refresh_token] on it raises an
    [HTTPException] with status 401 at every later instant and from every
    address: no access token is minted from it. *)
Theorem login_refresh_token_is_rejected now login_data db ip s tokens s' :
  login now login_data db ip s = (Ret tokens, s') →
  is_Some (active_tokens s' !! schemas.refresh_token tokens)
  ∧ ∀ now' ip',
      ∃ detail,
        refresh_token now' (schemas.refresh_token tokens) ip' s'
        = (Raise (HTTPException 401 detail), s').
Proof.
  intros (token_data & _ & _ & -> & ->)%login_Ret_inv.
  unfold logged_in. rewrite create_refresh_token_eq.
  cbn [schemas.refresh_token snd active_tokens].
  split; [rewrite lookup_insert_eq; eauto|].
  intros now' ip'. unfold refresh_token, bindM, verify_refresh_token.
  cbn [active_tokens]. rewrite lookup_insert_eq.
  edestruct (verify_signed_without_sub now' (refresh_claims now token_data ip))
    as [detail ->]; eauto using refresh_claims_exp, refresh_claims_sub.
Qed.

End issued.

(** Alice's fresh access token, checked a microsecond after it was minted. *)
Example fresh_access_token_is_rejected_at_once :
  let minted := create_access_token example.t0 example.alice_data example.office startup in
  ∃ token, minted.1 = Ret token
    ∧ verify_access_token (example.t0 + 1) token example.office minted.2
      = (Raise
          (HTTPException 401
             (ErrorResponse_dict 401 "Invalid token: Missing required claims")),
         minted.2).
Proof.
  eexists. split; [reflexivity|].
  apply pair_from_projections; [vm_compute; reflexivity|].
  apply verify_access_token_stores.
Qed.

(** The example deployment: the temporary token is good for the office,
    and Alice's login goes through. *)
Lemma example_temp_token_accepted :
  verify_temp_token (example.t0 + example.second) example.temp example.office
    example.page_served
  = (Ret true, example.page_served).
Proof.
  apply verify_temp_token_true. eexists.
  split; [vm_compute; reflexivity|]. vm_compute. split_and!; congruence.
Qed.

Lemma example_login :
  login (example.t0 + example.second) example.good_login example.db example.office
    example.page_served
  = (Ret example.session_tokens, example.signed_in).
Proof.
  rewrite (login_accepted _ _ _ _ _ example.alice_data);
    [reflexivity | apply example_temp_token_accepted | vm_compute; reflexivity].
Qed.

Lemma login_refresh_token_is_rejected_witness :
  login (example.t0 + example.second) example.good_login example.db example.office
    example.page_served
  = (Ret example.session_tokens, example.signed_in)
  ∧ ∃ detail,
      refresh_token (example.t0 + 1000 * example.second)
        (schemas.refresh_token example.session_tokens) example.office example.signed_in
      = (Raise (HTTPException 401 detail), example.signed_in).
Proof.
  split; [exact example_login|].
  exact (proj2 (login_refresh_token_is_rejected _ _ _ _ _ _ _ example_login) _ _).
Defined.

(** ** The validation routine, on examples *)

(** The order, one check at a time: with the type put right the expiry is
    reported, then the address, then the missing claims. *)
Example validation_reports_expiry_second :
  _validate_token_payload example.t0 example.stale_claims example.office "refresh"
  = Raise (JWTError "Token expired").
Proof. vm_compute. reflexivity. Qed.

Example validation_reports_address_third :
  _validate_token_payload 1500000000000000 example.stale_claims example.office "refresh"
  = Raise (JWTError "IP address changed").
Proof. vm_compute. reflexivity. Qed.

Example validation_reports_claims_last :
  _validate_token_payload 1500000000000000 example.stale_claims example.cafe "refresh"
  = Raise (JWTError "Missing required claims").
Proof. vm_compute. reflexivity. Qed.

(** A payload without an expiry claim and of the expected type is not
    reported by any of the four checks: the lookup itself fails. *)
Example validation_without_expiry :
  _validate_token_payload example.t0 (<["type" := PStr "access"]> ∅) example.office
    "access"
  = Raise (KeyError "exp").
Proof. vm_compute. reflexivity. Qed.

(** ** Temporary tokens and login *)

Section temporary.
Context `{Environment}.

Lemma create_temp_token_lookup now drawn ip s :
  temp_token_store (create_temp_token now drawn ip s).2 !! drawn
  = Some (mkTempRecord (now + temp_token_expiry) false ip).
Proof.
  unfold create_temp_token. cbn [snd temp_token_store].
  by rewrite lookup_insert_eq.
Qed.

Lemma mark_temp_token_used_lookup token s r :
  temp_token_store s !! token = Some r →
  temp_token_store (mark_temp_token_used token s).2 !! token
  = Some (mkTempRecord (t_expires_at r) true (t_ip r)).
Proof.
  intros Hr. unfold mark_temp_token_used. rewrite Hr.
  cbn [snd temp_token_store]. by rewrite lookup_insert_eq.
Qed.

Lemma create_access_token_temp now token_data ip s :
  temp_token_store (create_access_token now token_data ip s).2 = temp_token_store s.
Proof. by rewrite create_access_token_eq. Qed.

Lemma create_refresh_token_temp now token_data ip s :
  temp_token_store (create_refresh_token now token_data ip s).2 = temp_token_store s.
Proof. by rewrite create_refresh_token_eq. Qed.

Lemma verify_temp_token_used now token ip s r :
  temp_token_store s !! token = Some r → t_used r = true →
  verify_temp_token now token ip s = (Ret false, s).
Proof.
  intros Hr Hused. unfold verify_temp_token. rewrite Hr, Hused.
  by destruct (now >? t_expires_at r).
Qed.

(** C7. [verify_temp_token] answers true exactly for a token that is in the
    store, not past its expiry, unused and recorded for the caller's
    address, and it leaves the stores as they are; once a login has
    succeeded with a temporary token, every later login presenting it is
    refused with "Invalid or expired temporary token"; a temporary token
    issued for one address is refused from any other address, at any time. *)
Theorem verify_temp_token_exact :
  (∀ s now token ip,
     ∃ b, verify_temp_token now token ip s = (Ret b, s)
          ∧ (b = true ↔
             ∃ r, temp_token_store s !! token = Some r
                  ∧ ¬ now > t_expires_at r ∧ t_used r = false ∧ t_ip r = ip))
  ∧ (∀ s now login_data db ip tokens s',
       login now login_data db ip s = (Ret tokens, s') →
       ∀ now' login_data' db' ip',
         schemas.login_temp_token login_data' = schemas.login_temp_token login_data →
         login now' login_data' db' ip' s'
         = (Raise
             (HTTPException 401
                (ErrorResponse_dict 401 "Invalid or expired temporary token")), s'))
  ∧ (∀ s now drawn ip_a ip_b now',
       ip_a ≠ ip_b →
       verify_temp_token now' drawn ip_b (create_temp_token now drawn ip_a s).2
       = (Ret false, (create_temp_token now drawn ip_a s).2)).
Proof.
  split_and!.
  - intros s now token ip.
    destruct (verify_temp_token_total now token ip s) as [b Hb].
    exists b. split; [done|]. rewrite <- verify_temp_token_true, Hb.
    split; [by intros ->|congruence].
  - intros s now login_data db ip tokens s' Hlogin now' login_data' db' ip' Htemp.
    apply login_Ret_inv in Hlogin as (token_data & Hvalid & _ & _ & ->).
    apply verify_temp_token_true in Hvalid as (r & Hr & _).
    apply login_rejected_temp_token. rewrite Htemp.
    apply (verify_temp_token_used _ _ _ _
             (mkTempRecord (t_expires_at r) true (t_ip r))); [|done].
    unfold logged_in.
    rewrite create_refresh_token_temp, create_access_token_temp.
    by apply mark_temp_token_used_lookup.
  - intros s now drawn ip_a ip_b now' Hne. unfold verify_temp_token.
    rewrite create_temp_token_lookup. cbn [t_expires_at t_used t_ip].
    destruct (now' >? now + temp_token_expiry); [done|].
    by rewrite bool_decide_eq_true_2.
Qed.

(** C6. A login that presents a valid temporary token with credentials that
    do not verify (no such user, or a password the context reports as not
    matching) raises the 401 "Invalid credentials" and leaves both stores as
    they were; the temporary token is still there and unused, and a login
    with it and credentials that do verify is accepted. *)
Theorem failed_credentials_keep_temp_token s now login_data db ip :
  verify_temp_token now (schemas.login_temp_token login_data) ip s = (Ret true, s) →
  (db (schemas.login_username login_data) = None
   ∨ ∃ user, db (schemas.login_username login_data) = Some user
             ∧ verify_password (schemas.login_password login_data)
                 (model.password_hash user) = Ret false) →
  ∃ s',
    login now login_data db ip s = (Raise
        (HTTPException 401 (ErrorResponse_dict 401 "Invalid credentials")), s')
    ∧ s' = s
    ∧ (∃ r, temp_token_store s' !! schemas.login_temp_token login_data = Some r
            ∧ t_used r = false)
    ∧ ∀ retry token_data,
        schemas.login_temp_token retry = schemas.login_temp_token login_data →
        authenticate_user db (schemas.login_username retry)
          (schemas.login_password retry) = Ret token_data →
        ∃ tokens s'', login now retry db ip s' = (Ret tokens, s'').
Proof.
  intros Hvalid Hcred. exists s. split_and!; [|done| |].
  - apply login_rejected_credentials; [done|]. unfold authenticate_user.
    destruct Hcred as [-> | (user & -> & Hpw)]; [done|]. by rewrite Hpw.
  - apply verify_temp_token_true in Hvalid as (r & Hr & _ & Hused & _). eauto.
  - intros retry token_data Htemp Hauth. eexists _, _.
    apply login_accepted; [by rewrite Htemp|done].
Qed.

End temporary.

Lemma verify_temp_token_exact_witness :
  login (example.t0 + example.second) example.good_login example.db example.office
    example.page_served
  = (Ret example.session_tokens, example.signed_in)
  ∧ login (example.t0 + 2 * example.second) example.good_login example.db
      example.office example.signed_in
    = (Raise
        (HTTPException 401
           (ErrorResponse_dict 401 "Invalid or expired temporary token")),
       example.signed_in).
Proof.
  split; [exact example_login|].
  exact (proj1 (proj2 verify_temp_token_exact) _ _ _ _ _ _ _ example_login
           _ _ _ _ eq_refl).
Defined.

Lemma failed_credentials_keep_temp_token_witness :
  ∃ s',
    login (example.t0 + example.second) example.bad_login example.db example.office
      example.page_served
    = (Raise (HTTPException 401 (ErrorResponse_dict 401 "Invalid credentials")), s')
    ∧ s' = example.page_served.
Proof.
  destruct (failed_credentials_keep_temp_token example.page_served
              (example.t0 + example.second) example.bad_login example.db
              example.office example_temp_token_accepted)
    as (s' & Hlogin & Hs' & _).
  - right. exists example.alice. split; vm_compute; reflexivity.
  - exists s'. by split.
Defined.

(** ** Revocation and the request dependency *)

Section revocation.
Context `{Environment}.

Lemma verify_access_token_unregistered now token ip s :
  active_tokens s !! token = None →
  verify_access_token now token ip s
  = (Raise (JWTError "Token not found or revoked"), s).
Proof. intros Hnone. unfold verify_access_token. by rewrite Hnone. Qed.

Lemma verify_refresh_token_unregistered now token ip s :
  active_tokens s !! token = None →
  verify_refresh_token now token ip s
  = (Raise (JWTError "Token not found or revoked"), s).
Proof. intros Hnone. unfold verify_refresh_token. by rewrite Hnone. Qed.

(** C3 (the code departs from the claim). Revoking a registered token
    returns [True] and deletes its entry and nothing else, and revoking an
    unknown token returns [False] and changes nothing; but the verification
    that follows raises the bare [JWTError] "Token not found or revoked",
    which is not an [HTTPException]: it is raised before the [try] whose
    handler turns a [JWTError] into the 401, so the response is that of an
    unhandled error. *)
Theorem revoked_token_raises_bare_JWTError s token :
  (∀ entry, active_tokens s !! token = Some entry →
     ∃ s', revoke_token token s = (Ret true, s')
           ∧ active_tokens s' = delete token (active_tokens s)
           ∧ temp_token_store s' = temp_token_store s
           ∧ ∀ now ip,
               verify_access_token now token ip s'
               = (Raise (JWTError "Token not found or revoked"), s')
               ∧ is_http 401 (JWTError "Token not found or revoked") = false
               ∧ response_status (JWTError "Token not found or revoked") = 500)
  ∧ (active_tokens s !! token = None → revoke_token token s = (Ret false, s)).
Proof.
  split.
  - intros entry Hentry. unfold revoke_token. rewrite Hentry.
    eexists. split_and!; [done..|].
    intros now ip. split_and!; [|done..].
    apply verify_access_token_unregistered. cbn [active_tokens].
    apply lookup_delete_eq.
  - intros Hnone. unfold revoke_token. by rewrite Hnone.
Qed.

(** C4 (the code departs from the claim). When the access cookie holds a
    token that is not in the registry (revoked, swept or never issued),
    [get_current_user] raises the bare [JWTError] of the verification:
    the handler around it catches [HTTPException] only, so no refresh is
    attempted, whatever the refresh cookie holds, the request and the stores
    are left as they were, and the response is not a 401. *)
Theorem get_current_user_unregistered_access_token now request s token :
  cookies request !! "access_token" = Some token →
  active_tokens s !! token = None →
  get_current_user now request s
  = (Raise (JWTError "Token not found or revoked"), request, s)
  ∧ response_status (JWTError "Token not found or revoked") ≠ 401.
Proof.
  intros Hcookie Hnone. split; [|done].
  unfold get_current_user. rewrite Hcookie.
  by rewrite verify_access_token_unregistered.
Qed.

(** The same escape on the refresh path: the access token is refused with
    an [HTTPException], the refresh cookie holds an unregistered token. *)
Lemma get_current_user_unregistered_refresh_token now request s token refresh c d :
  cookies request !! "access_token" = Some token →
  verify_access_token now token (client_host request) s
  = (Raise (HTTPException c d), s) →
  cookies request !! "refresh_token" = Some refresh →
  active_tokens s !! refresh = None →
  get_current_user now request s
  = (Raise (JWTError "Token not found or revoked"), request, s).
Proof.
  intros Hcookie Hverify Hrefresh Hnone.
  unfold get_current_user. rewrite Hcookie, Hverify, Hrefresh.
  unfold refresh_token, bindM.
  by rewrite verify_refresh_token_unregistered.
Qed.

(** Without the access cookie: the 401 "Missing access token", nothing
    attempted. *)
Lemma get_current_user_missing_cookie now request s :
  cookies request !! "access_token" = None →
  get_current_user now request s
  = (Raise
      (HTTPException 401 (ErrorResponse_dict 401 "Missing access token")), request, s).
Proof. intros Hcookie. unfold get_current_user. by rewrite Hcookie. Qed.

(** The dependency of dependencies.py takes the same steps and differs in
    the form of what it raises only. *)
Lemma dependencies_get_current_user now request s :
  dependencies.get_current_user now request s
  = match get_current_user now request s with
    | (Raise e, request', s') => (Raise (bare_detail e), request', s')
    | answer => answer
    end.
Proof.
  unfold dependencies.get_current_user, get_current_user, unauthenticated.
  destruct (cookies request !! "access_token") as [token|]; [|done].
  destruct (verify_access_token now token (client_host request) s) as [[td|e] s1];
    [done|].
  destruct e; try done.
  destruct (cookies request !! "refresh_token") as [refresh|]; [|done].
  destruct (refresh_token now refresh (client_host request) s1) as [[new|e] s2].
  - cbn zeta. cbn [client_host].
    destruct (verify_access_token now (schemas.access_token new)
                (client_host request) s2) as [[td|e] s3]; [done|].
    by destruct e.
  - by destruct e.
Qed.

Lemma dependencies_require_role role now request s :
  dependencies.require_role role now request s
  = match require_role role now request s with
    | (Raise e, request', s') => (Raise (bare_detail e), request', s')
    | answer => answer
    end.
Proof.
  unfold dependencies.require_role, require_role.
  rewrite dependencies_get_current_user.
  destruct (get_current_user now request s) as [[[user|e] request'] s']; [|done].
  by case_bool_decide.
Qed.

Lemma response_status_bare_detail e :
  response_status (bare_detail e) = response_status e.
Proof. destruct e as [|c [|]| | | |]; done. Qed.

End revocation.

Lemma example_access_token_registered :
  is_Some (active_tokens example.signed_in
             !! schemas.access_token example.session_tokens).
Proof.
  unfold example.signed_in, logged_in.
  rewrite create_refresh_token_eq, create_access_token_eq.
  cbn [snd active_tokens]. vm_compute. eauto.
Qed.

Lemma revoked_token_raises_bare_JWTError_witness :
  ∃ s', revoke_token (schemas.access_token example.session_tokens) example.signed_in
        = (Ret true, s')
        ∧ verify_access_token (example.t0 + 2 * example.second)
            (schemas.access_token example.session_tokens) example.office s'
          = (Raise (JWTError "Token not found or revoked"), s').
Proof.
  destruct example_access_token_registered as [entry Hentry].
  destruct (proj1 (revoked_token_raises_bare_JWTError example.signed_in
                     (schemas.access_token example.session_tokens)) entry Hentry)
    as (s' & Hrevoke & _ & _ & Hverify).
  exists s'. split; [exact Hrevoke|]. apply Hverify.
Defined.

Lemma example_access_token_revoked :
  active_tokens example.signed_out !! schemas.access_token example.session_tokens
  = None.
Proof.
  destruct example_access_token_registered as [entry Hentry].
  unfold example.signed_out, revoke_token. rewrite Hentry.
  cbn [snd active_tokens]. apply lookup_delete_eq.
Qed.

Lemma get_current_user_unregistered_access_token_witness :
  get_current_user (example.t0 + 2 * example.second) example.request
    example.signed_out
  = (Raise (JWTError "Token not found or revoked"), example.request,
     example.signed_out).
Proof.
  apply (get_current_user_unregistered_access_token _ _ _
           (schemas.access_token example.session_tokens)).
  - vm_compute. reflexivity.
  - apply example_access_token_revoked.
Defined.

(** ** What each call does to the registry *)

Section registry.
Context `{Environment}.

Lemma verify_refresh_token_cases now token ip s :
  (∃ e, verify_refresh_token now token ip s = (Raise e, s))
  ∨ (∃ token_data, verify_refresh_token now token ip s = (Ret token_data, s)
                   ∧ is_Some (active_tokens s !! token)).
Proof.
  unfold verify_refresh_token.
  destruct (active_tokens s !! token) as [entry|]; [|eauto].
  match goal with |- context [except_JWTError ?p ?r] =>
    destruct (except_JWTError p r) as [token_data|e] end; eauto.
Qed.

Lemma refresh_token_cases now refresh ip s :
  (∃ e, refresh_token now refresh ip s = (Raise e, s))
  ∨ (∃ token_data,
       is_Some (active_tokens s !! refresh)
       ∧ refresh_token now refresh ip s
         = (Ret (schemas.mkToken
                   (jws_sign (access_payload now token_data ip) SECRET_KEY)
                   refresh "bearer"),
            (create_access_token now token_data ip s).2)).
Proof.
  unfold refresh_token, bindM, retM.
  destruct (verify_refresh_token_cases now refresh ip s)
    as [[e ->]|(token_data & -> & Hreg)]; [eauto|].
  right. exists token_data. split; [done|].
  by rewrite create_access_token_eq.
Qed.

(** The stores after [get_current_user]: untouched, or with the one access
    token a refresh minted. *)
Lemma get_current_user_stores now request s :
  (get_current_user now request s).2 = s
  ∨ ∃ token_data,
      (get_current_user now request s).2
      = (create_access_token now token_data (client_host request) s).2.
Proof.
  unfold get_current_user.
  destruct (cookies request !! "access_token") as [token|]; [|by left].
  pose proof (verify_access_token_stores now token (client_host request) s) as Hs1.
  destruct (verify_access_token now token (client_host request) s) as [[td|e] s1].
  { simpl in *. by left. }
  simpl in Hs1. subst s1.
  destruct e; try by left.
  destruct (cookies request !! "refresh_token") as [refresh|]; [|by left].
  destruct (refresh_token_cases now refresh (client_host request) s)
    as [[e ->]|(token_data & _ & ->)].
  { destruct e; by left. }
  right. exists token_data.
  match goal with |- context [verify_access_token ?n ?t ?i ?s'] =>
    pose proof (verify_access_token_stores n t i s') as Hs2;
    destruct (verify_access_token n t i s') as [[td|e] s2] end;
    simpl in Hs2; subst s2; [done|]. by destruct e.
Qed.

Lemma login_stores now login_data db ip s :
  (login now login_data db ip s).2 = s
  ∨ ∃ token_data,
      (login now login_data db ip s).2
      = logged_in now (schemas.login_temp_token login_data) token_data ip s.
Proof.
  destruct (verify_temp_token_total now (schemas.login_temp_token login_data) ip s)
    as [[] Htemp].
  - destruct (authenticate_user db (schemas.login_username login_data)
                (schemas.login_password login_data)) as [token_data|e] eqn:Hauth.
    + right. exists token_data. by rewrite (login_accepted _ _ _ _ _ token_data).
    + left. by rewrite (login_rejected_credentials _ _ _ _ _ e).
  - left. by rewrite login_rejected_temp_token.
Qed.

Lemma foldl_delete_lookup `{Countable K} {V} (m : gmap K V) (keys : list K) k :
  foldl (λ m key, delete key m) m keys !! k
  = if decide (k ∈ keys) then None else m !! k.
Proof.
  revert m. induction keys as [|key keys IH]; intros m; cbn [foldl].
  - case_decide as Hin; [by apply not_elem_of_nil in Hin|done].
  - rewrite IH.
    destruct (decide (k ∈ keys)) as [Hin|Hnin];
      destruct (decide (k ∈ key :: keys)) as [Hin'|Hnin']; try done.
    + exfalso. apply Hnin'. by apply list_elem_of_further.
    + apply elem_of_cons in Hin' as [->|?]; [apply lookup_delete_eq|done].
    + apply lookup_delete_ne. intros ->. apply Hnin', list_elem_of_here.
Qed.

Lemma elem_of_expired_temp now s token :
  token ∈ expired_temp now s
  ↔ ∃ entry, temp_token_store s !! token = Some entry ∧ temp_expired now entry.
Proof.
  unfold expired_temp, temp_expired. rewrite list_elem_of_fmap. split.
  - intros ([k entry] & -> & [Hexp Hin%elem_of_map_to_list]%list_elem_of_filter).
    eauto.
  - intros (entry & Hin & Hexp). exists (token, entry). split; [done|].
    apply list_elem_of_filter. split; [done|]. by apply elem_of_map_to_list.
Qed.

Lemma expired_active_integers now (items : list (token * ActiveRecord)) :
  (∀ k v, (k, v) ∈ items → ∃ n, a_exp v = PInt n) →
  ∃ expired,
    expired_active now items = Ret expired
    ∧ ∀ k, k ∈ expired ↔ ∃ v, (k, v) ∈ items ∧ active_expired now v.
Proof.
  unfold active_expired.
  induction items as [|[k v] items IH]; intros Hint; simpl.
  - exists []. split; [done|]. intros k. split.
    + by intros ?%not_elem_of_nil.
    + by intros (v & ?%not_elem_of_nil & _).
  - destruct (Hint k v) as [n Hn]; [apply list_elem_of_here|].
    destruct IH as (rest & -> & Hrest).
    { intros k' v' Hin. apply (Hint k' v'). by apply list_elem_of_further. }
    rewrite Hn. simpl. eexists. split; [done|]. intros k'.
    destruct (Z.ltb_spec (fromtimestamp n) now) as [Hlt|Hge].
    + rewrite elem_of_cons, Hrest. split.
      * intros [->|(v' & Hin & Hexp)].
        -- exists v. split; [apply list_elem_of_here|eauto].
        -- exists v'. split; [by apply list_elem_of_further|done].
      * intros (v' & [[= -> ->]|Hin]%elem_of_cons & Hexp); [by left|].
        right. eauto.
    + rewrite Hrest. split.
      * intros (v' & Hin & Hexp). exists v'.
        split; [by apply list_elem_of_further|done].
      * intros (v' & [[= -> ->]|Hin]%elem_of_cons & Hexp); [|eauto].
        destruct Hexp as (n' & Hn' & Hlt). rewrite Hn in Hn'. simplify_eq. lia.
Qed.

(** One pass of the sweep over a registry of integer expiries. *)
Lemma cleanup_pass_integers now s :
  integer_expiries s →
  ∃ s', cleanup_pass now s = (Ret (), s')
        ∧ (∀ token entry,
             temp_token_store s' !! token = Some entry
             ↔ temp_token_store s !! token = Some entry ∧ ¬ temp_expired now entry)
        ∧ (∀ token entry,
             active_tokens s' !! token = Some entry
             ↔ active_tokens s !! token = Some entry ∧ ¬ active_expired now entry).
Proof.
  intros Hint. unfold cleanup_pass.
  destruct (expired_active_integers now (map_to_list (active_tokens s)))
    as (expired & -> & Hexpired).
  { intros k v Hin%elem_of_map_to_list. by apply (Hint k v). }
  eexists. split; [done|]. cbn [temp_token_store active_tokens]. split.
  - intros token entry. rewrite foldl_delete_lookup.
    destruct (decide (token ∈ expired_temp now s)) as [Hin|Hnot].
    + apply elem_of_expired_temp in Hin as (entry' & Hentry' & Hexp).
      split; [done|]. intros [Hentry Hlive]. by simplify_eq.
    + split; [|by intros [? _]]. intros Hentry. split; [done|].
      intros Hexp. apply Hnot, elem_of_expired_temp. eauto.
  - intros token entry. rewrite foldl_delete_lookup.
    destruct (decide (token ∈ expired)) as [Hin|Hnot].
    + apply Hexpired in Hin as (entry' & Hentry'%elem_of_map_to_list & Hexp).
      split; [done|]. intros [Hentry Hlive]. by simplify_eq.
    + split; [|by intros [? _]]. intros Hentry. split; [done|].
      intros Hexp. apply Hnot, Hexpired. exists entry.
      split; [by apply elem_of_map_to_list|done].
Qed.

Lemma cleanup_pass_active now s token entry :
  active_tokens (cleanup_pass now s).2 !! token = Some entry →
  active_tokens s !! token = Some entry.
Proof.
  unfold cleanup_pass.
  destruct (expired_active now (map_to_list (active_tokens s))) as [expired|e];
    cbn [snd active_tokens]; [|done].
  rewrite foldl_delete_lookup. by case_decide.
Qed.

End registry.

(** ** The stores the application can be in *)

Section invariant.
Context `{Environment}.

Lemma minted_registry_create_access now token_data ip s :
  minted_registry s → minted_registry (create_access_token now token_data ip s).2.
Proof.
  intros Hs token entry. rewrite create_access_token_eq. cbn [snd active_tokens].
  intros [[<- <-]|[_ Hentry]]%lookup_insert_Some; [|by eapply Hs].
  exists now, token_data, ip. by left.
Qed.

Lemma minted_registry_create_refresh now token_data ip s :
  minted_registry s → minted_registry (create_refresh_token now token_data ip s).2.
Proof.
  intros Hs token entry. rewrite create_refresh_token_eq. cbn [snd active_tokens].
  intros [[<- <-]|[_ Hentry]]%lookup_insert_Some; [|by eapply Hs].
  exists now, token_data, ip. by right.
Qed.

Lemma minted_registry_same_registry s s' :
  active_tokens s' = active_tokens s → minted_registry s → minted_registry s'.
Proof. intros Heq Hs token entry. rewrite Heq. apply Hs. Qed.

Lemma minted_registry_call c s : minted_registry s → minted_registry (after c s).
Proof.
  intros Hs. destruct c; cbn [after].
  - by apply (minted_registry_same_registry s).
  - by rewrite verify_temp_token_pure.
  - apply (minted_registry_same_registry s); [|done].
    unfold mark_temp_token_used. by case_match.
  - by apply minted_registry_create_access.
  - by apply minted_registry_create_refresh.
  - by rewrite verify_access_token_stores.
  - by rewrite verify_refresh_token_stores.
  - destruct (login_stores now login_data db client_ip s) as [->|[token_data ->]];
      [done|].
    unfold logged_in.
    apply minted_registry_create_refresh, minted_registry_create_access.
    apply (minted_registry_same_registry s); [|done].
    unfold mark_temp_token_used. by case_match.
  - destruct (refresh_token_cases now token0 client_ip s)
      as [[e ->]|(token_data & _ & ->)]; [done|].
    by apply minted_registry_create_access.
  - intros token entry Hentry. apply (Hs token entry).
    by apply (cleanup_pass_active now).
  - intros token entry. unfold revoke_token.
    destruct (active_tokens s !! token0); cbn [snd active_tokens]; [|apply Hs].
    intros [_ Hentry]%lookup_delete_Some. by apply (Hs token entry).
  - destruct (get_current_user_stores now request s) as [->|[token_data ->]];
      [done|].
    by apply minted_registry_create_access.
Qed.

Lemma reachable_minted_registry s : reachable s → minted_registry s.
Proof.
  induction 1 as [|c s _ IH]; [|by apply minted_registry_call].
  intros token entry. unfold startup. cbn [active_tokens].
  by rewrite lookup_empty.
Qed.

Lemma minted_registry_integer_expiries s : minted_registry s → integer_expiries s.
Proof.
  intros Hs token entry Hentry.
  destruct (Hs token entry Hentry) as (now & token_data & ip & [[_ ->]|[_ ->]]); eauto.
Qed.

(** What a registered token decodes to, under either key: claims the
    service signed, with an integer expiry and no "sub". *)
Lemma registered_token_decodes_minted s now token key (claims : payload) :
  minted_registry s →
  is_Some (active_tokens s !! token) →
  jwt_decode now token key = Ret claims →
  (∃ exp, claims !! "exp" = Some (PInt exp)) ∧ claims !! "sub" = None.
Proof.
  intros Hs [entry Hentry] Hdecode.
  destruct (Hs token entry Hentry) as (t & token_data & ip & [[-> _]|[-> _]]).
  - destruct (decide (SECRET_KEY = key)) as [<-|Hne].
    + destruct (jwt_decode_sign now (access_payload t token_data ip) SECRET_KEY)
        as [Hret|[msg Hraise]]; [|congruence].
      rewrite Hret in Hdecode. simplify_eq.
      split; [rewrite access_payload_exp; eauto|apply access_payload_sub].
    + destruct (jwt_decode_other_key now (access_payload t token_data ip)
                  SECRET_KEY key Hne) as [msg Hraise]. congruence.
  - destruct (decide (REFRESH_SECRET_KEY = key)) as [<-|Hne].
    + destruct (jwt_decode_sign now (refresh_claims t token_data ip)
                  REFRESH_SECRET_KEY) as [Hret|[msg Hraise]]; [|congruence].
      rewrite Hret in Hdecode. simplify_eq.
      split; [rewrite refresh_claims_exp; eauto|apply refresh_claims_sub].
    + destruct (jwt_decode_other_key now (refresh_claims t token_data ip)
                  REFRESH_SECRET_KEY key Hne) as [msg Hraise]. congruence.
Qed.

(** C2. In every store the application can reach, one pass of the sweep
    completes, and afterwards the temporary tokens are exactly the former
    ones whose [expires_at] is not before [now], the registry is exactly the
    former entries (access and refresh alike) whose recorded expiry is not
    before [now], each with its record unchanged. *)
Theorem sweep_removes_exactly_the_expired s now :
  reachable s →
  ∃ s', cleanup_pass now s = (Ret (), s')
        ∧ (∀ token entry,
             temp_token_store s' !! token = Some entry
             ↔ temp_token_store s !! token = Some entry ∧ ¬ temp_expired now entry)
        ∧ (∀ token entry,
             active_tokens s' !! token = Some entry
             ↔ active_tokens s !! token = Some entry ∧ ¬ active_expired now entry).
Proof.
  intros Hs. apply cleanup_pass_integers.
  by apply minted_registry_integer_expiries, reachable_minted_registry.
Qed.

End invariant.

Lemma example_signed_in_reachable : reachable example.signed_in.
Proof.
  replace example.signed_in
    with (after (Login (example.t0 + example.second) example.good_login example.db
                   example.office)
            (after (CreateTempToken example.t0 example.temp example.office) startup)).
  - do 2 apply reachable_call. apply reachable_startup.
  - cbn [after]. fold example.page_served. by rewrite example_login.
Qed.

(** A thousand seconds after [t0] the access token (fifteen minutes) is past
    its expiry and the refresh token (seven days) is not. *)
Lemma sweep_removes_exactly_the_expired_witness :
  ∃ s', cleanup_pass (example.t0 + 1000 * example.second) example.signed_in
        = (Ret (), s')
        ∧ active_tokens s' !! schemas.access_token example.session_tokens = None
        ∧ is_Some (active_tokens s' !! schemas.refresh_token example.session_tokens).
Proof.
  destruct (sweep_removes_exactly_the_expired example.signed_in
              (example.t0 + 1000 * example.second) example_signed_in_reachable)
    as (s' & Hpass & _ & Hactive).
  exists s'. split; [exact Hpass|]. split.
  - destruct (active_tokens s' !! schemas.access_token example.session_tokens)
      as [entry|] eqn:Hentry; [|done].
    apply Hactive in Hentry as [Hentry Hlive]. exfalso. apply Hlive.
    revert Hentry. unfold example.signed_in, logged_in.
    rewrite create_refresh_token_eq, create_access_token_eq.
    cbn [snd active_tokens]. rewrite lookup_insert_ne by done.
    rewrite lookup_insert_eq. intros [= <-].
    eexists. split; [reflexivity|]. vm_compute. reflexivity.
  - eexists. apply Hactive. split.
    + unfold example.signed_in, logged_in. rewrite create_refresh_token_eq.
      cbn [snd active_tokens]. apply lookup_insert_eq.
    + intros (n & [= <-] & Hlt). vm_compute in Hlt. discriminate.
Defined.

(** ** The validation routine *)

Section routine.
Context `{Environment}.

(** C5 (as amended). The routine is the four checks WrongType, Expired,
    IpMismatch, MissingClaims tried in that order on a payload with an
    integer expiry that [datetime.fromtimestamp] can represent, the first
    that fails being the one reported; every payload decoded from a
    registered token has an integer expiry; the two verifications hand what
    the decoder returns to this one routine, with "access" and with
    "refresh", and add no check of their own; and what the decoder refuses
    is reported in the decoder's words, the routine not being run: the
    decoder is called with the library's defaults, so the checks it makes
    (expiry among them) come before the four. *)
Theorem validation_is_four_ordered_checks :
  (∀ now (claims : payload) exp bound_ip kind,
     claims !! "exp" = Some (PInt exp) →
     representable (fromtimestamp exp) →
     _validate_token_payload now claims bound_ip kind
     = first_failure (four_checks now claims exp bound_ip kind))
  ∧ (∀ s now token key (claims : payload),
       reachable s →
       is_Some (active_tokens s !! token) →
       jwt_decode now token key = Ret claims →
       ∃ exp, claims !! "exp" = Some (PInt exp))
  ∧ (∀ s now token (claims : payload) exp bound_ip,
       is_Some (active_tokens s !! token) →
       claims !! "exp" = Some (PInt exp) →
       representable (fromtimestamp exp) →
       (jwt_decode now token SECRET_KEY = Ret claims →
        verify_access_token now token bound_ip s
        = (except_JWTError "Invalid token: "
             (_ ← first_failure (four_checks now claims exp bound_ip "access");
              TokenData_of_payload claims), s))
       ∧ (jwt_decode now token REFRESH_SECRET_KEY = Ret claims →
          verify_refresh_token now token bound_ip s
          = (except_JWTError "Invalid refresh token: "
               (_ ← first_failure (four_checks now claims exp bound_ip "refresh");
                TokenData_of_payload claims), s)))
  ∧ (∀ s now token bound_ip msg,
       is_Some (active_tokens s !! token) →
       (jwt_decode now token SECRET_KEY = Raise (JWTError msg) →
        verify_access_token now token bound_ip s
        = (Raise (HTTPException 401
                    (ErrorResponse_dict 401 ("Invalid token: " +:+ msg))), s))
       ∧ (jwt_decode now token REFRESH_SECRET_KEY = Raise (JWTError msg) →
          verify_refresh_token now token bound_ip s
          = (Raise (HTTPException 401
                      (ErrorResponse_dict 401 ("Invalid refresh token: " +:+ msg))),
             s))).
Proof.
  split_and!.
  - intros. by apply validate_as_specified.
  - intros s now token key claims Hs Hreg Hdecode.
    apply reachable_minted_registry in Hs.
    by destruct (registered_token_decodes_minted s now token key claims).
  - intros s now token claims exp bound_ip [entry Hentry] Hexp _. split.
    + intros Hdecode. unfold verify_access_token.
      rewrite Hentry, Hdecode. cbn [mbind result_bind].
      by rewrite (validate_as_specified _ _ exp).
    + intros Hdecode. unfold verify_refresh_token.
      rewrite Hentry, Hdecode. cbn [mbind result_bind].
      by rewrite (validate_as_specified _ _ exp).
  - intros s now token bound_ip msg [entry Hentry]. split.
    + intros Hdecode. unfold verify_access_token. by rewrite Hentry, Hdecode.
    + intros Hdecode. unfold verify_refresh_token. by rewrite Hentry, Hdecode.
Qed.

(** No registered token is ever accepted: in a reachable store both
    verifications raise on every token, address and instant. *)
Lemma reachable_verification_raises s now token ip :
  reachable s →
  (∃ e, verify_access_token now token ip s = (Raise e, s))
  ∧ (∃ e, verify_refresh_token now token ip s = (Raise e, s)).
Proof.
  intros Hs%reachable_minted_registry.
  assert (∀ key kind prefix,
            is_Some (active_tokens s !! token) →
            ∃ e, except_JWTError prefix
                   (claims ← jwt_decode now token key;
                    _ ← _validate_token_payload now claims ip kind;
                    TokenData_of_payload claims) = Raise e) as Hraise.
  { intros key kind prefix Hreg.
    destruct (jwt_decode now token key) as [claims|e] eqn:Hdecode.
    - destruct (registered_token_decodes_minted s now token key claims)
        as [[exp Hexp] Hsub]; [done..|].
      destruct (validate_without_sub now claims exp ip kind) as [msg Hmsg];
        [done..|].
      cbn [mbind result_bind]. rewrite Hmsg. simpl. eauto.
    - simpl. destruct e; simpl; eauto. }
  split.
  - unfold verify_access_token.
    destruct (active_tokens s !! token) as [entry|] eqn:Hentry; [|eauto].
    destruct (Hraise SECRET_KEY "access" "Invalid token: ") as [e ->]; eauto.
  - unfold verify_refresh_token.
    destruct (active_tokens s !! token) as [entry|] eqn:Hentry; [|eauto].
    destruct (Hraise REFRESH_SECRET_KEY "refresh" "Invalid refresh token: ")
      as [e ->]; eauto.
Qed.

(** The background task never dies: from a reachable store the loop
    completes every pass, whatever the instants it wakes up at. *)
Lemma cleanup_expired_tokens_completes wakeups s :
  reachable s → ∃ s', cleanup_expired_tokens wakeups s = (Ret (), s').
Proof.
  revert s. induction wakeups as [|now later IH]; intros s Hs; cbn.
  - by exists s.
  - unfold bindM.
    destruct (cleanup_pass_integers now s) as (s1 & Hpass & _).
    { by apply minted_registry_integer_expiries, reachable_minted_registry. }
    rewrite Hpass. apply IH.
    replace s1 with (after (CleanupPass now) s) by (cbn [after]; by rewrite Hpass).
    by apply reachable_call.
Qed.

(** No request is ever authenticated: in a reachable store a refresh and
    the request dependency raise on every input. *)
Lemma reachable_refresh_raises s now refresh ip :
  reachable s → ∃ e, refresh_token now refresh ip s = (Raise e, s).
Proof.
  intros Hs. unfold refresh_token, bindM.
  destruct (proj2 (reachable_verification_raises s now refresh ip Hs)) as [e ->].
  eauto.
Qed.

Lemma reachable_get_current_user_raises s now request :
  reachable s → ∃ e, get_current_user now request s = (Raise e, request, s).
Proof.
  intros Hs. unfold get_current_user.
  destruct (cookies request !! "access_token") as [token|]; [|eauto].
  destruct (proj1 (reachable_verification_raises s now token (client_host request)
                     Hs)) as [e ->].
  destruct e; eauto.
  destruct (cookies request !! "refresh_token") as [refresh|];
    [|unfold unauthenticated; eauto].
  destruct (reachable_refresh_raises s now refresh (client_host request) Hs)
    as [e ->].
  destruct e; unfold unauthenticated; eauto.
Qed.

End routine.

Lemma validation_is_four_ordered_checks_witness :
  example.stale_claims !! "exp" = Some (PInt 1600000000)
  ∧ representable (fromtimestamp 1600000000)
  ∧ _validate_token_payload example.t0 example.stale_claims example.office "access"
    = Raise (JWTError "Invalid token type").
Proof.
  assert (example.stale_claims !! "exp" = Some (PInt 1600000000)) as Hexp
    by (vm_compute; reflexivity).
  assert (representable (fromtimestamp 1600000000)) as Hrange
    by (vm_compute; split; discriminate).
  split; [exact Hexp|]. split; [exact Hrange|].
  rewrite (proj1 validation_is_four_ordered_checks example.t0 example.stale_claims
             1600000000 example.office "access" Hexp Hrange).
  vm_compute. reflexivity.
Defined.

(** C5, as stated, fails: decoding does check expiry. Alice's access token,
    registered by her login, decodes a second after the login; a thousand
    seconds after [t0] the decoder itself refuses it, and the verification
    reports the decoder's words, not the "Token expired" of the routine. *)
Lemma decoding_checks_expiry :
  is_Some (active_tokens example.signed_in
             !! schemas.access_token example.session_tokens)
  ∧ jwt_decode (example.t0 + 2 * example.second)
      (schemas.access_token example.session_tokens) SECRET_KEY
    = Ret (access_payload (example.t0 + example.second) example.alice_data
             example.office)
  ∧ jwt_decode (example.t0 + 1000 * example.second)
      (schemas.access_token example.session_tokens) SECRET_KEY
    = Raise (JWTError "Signature has expired.")
  ∧ verify_access_token (example.t0 + 1000 * example.second)
      (schemas.access_token example.session_tokens) example.office
      example.signed_in
    = (Raise (HTTPException 401
                (ErrorResponse_dict 401 "Invalid token: Signature has expired.")),
       example.signed_in).
Proof.
  split; [apply example_access_token_registered|].
  split; [vm_compute; reflexivity|].
  split; [vm_compute; reflexivity|].
  apply pair_from_projections; [vm_compute; reflexivity|].
  apply verify_access_token_stores.
Qed.

(** The sweep depends on the expiries being integers: on an entry that
    records the [datetime] itself, the pass raises and the task dies. *)
Example sweep_raises_on_a_datetime_expiry :
  (cleanup_pass example.t0 example.datetime_registry).1
  = Raise (TypeError "an integer is required (got type datetime.datetime)").
Proof. vm_compute. reflexivity. Qed.

(** Alice's refresh token, checked a thousand seconds after her login. *)
Example login_refresh_token_is_rejected_for_its_claims :
  (verify_refresh_token (example.t0 + 1000 * example.second)
     (schemas.refresh_token example.session_tokens) example.office
     example.signed_in).1
  = Raise
      (HTTPException 401
         (ErrorResponse_dict 401 "Invalid refresh token: Missing required claims")).
Proof. vm_compute. reflexivity. Qed.

(** ** Refresh and the registry *)

Section refresh.
Context `{Environment}.


End refresh.


(** ** Passwords *)

Section passwords.
Context `{Environment}.

(** C9 (as amended). [verify_password] answers what the password context
    answers and raises what it raises: when the context raises on a hash
    string, so does [verify_password], so does [authenticate_user] for the
    user stored with that hash, and so does a login with that user's name
    and a valid temporary token, which leaves the stores untouched. *)
Theorem verify_password_raises_with_the_context plain hashed e :
  pwd_context_verify plain hashed = Raise e →
  verify_password plain hashed = Raise e
  ∧ ∀ db user,
      db (model.username user) = Some user →
      model.password_hash user = hashed →
      authenticate_user db (model.username user) plain = Raise e
      ∧ ∀ s now temp_token ip,
          verify_temp_token now temp_token ip s = (Ret true, s) →
          login now (schemas.mkLoginRequest (model.username user) plain temp_token)
            db ip s
          = (Raise e, s).
Proof.
  intros Hraise. split; [done|].
  intros db user Huser Hhash.
  assert (authenticate_user db (model.username user) plain = Raise e) as Hauth.
  { unfold authenticate_user, verify_password. by rewrite Huser, Hhash, Hraise. }
  split; [done|]. intros s now temp_token ip Htemp.
  by apply login_rejected_credentials.
Qed.

Lemma verify_password_returns_with_the_context plain hashed b :
  pwd_context_verify plain hashed = Ret b → verify_password plain hashed = Ret b.
Proof. done. Qed.

End passwords.

(** C9, as stated, fails: on a stored hash the bcrypt context does not
    identify, [verify_password] returns no boolean. *)
Lemma verify_password_raises_on_unidentified_hash :
  verify_password "anything" (model.password_hash example.mallory)
  = Raise (HashError "hash could not be identified")
  ∧ ¬ ∃ b, verify_password "anything" (model.password_hash example.mallory) = Ret b.
Proof.
  assert (verify_password "anything" (model.password_hash example.mallory)
          = Raise (HashError "hash could not be identified")) as Hraise
    by (vm_compute; reflexivity).
  split; [exact Hraise|]. intros [b Hb]. congruence.
Qed.

Lemma verify_password_raises_with_the_context_witness :
  login (example.t0 + example.second) example.legacy_login example.db example.office
    example.page_served
  = (Raise (HashError "hash could not be identified"), example.page_served).
Proof.
  assert (pwd_context_verify "anything" (model.password_hash example.mallory)
          = Raise (HashError "hash could not be identified")) as Hraise
    by (vm_compute; reflexivity).
  apply (proj2 (verify_password_raises_with_the_context _ _ _ Hraise)
           example.db example.mallory eq_refl eq_refl).
  apply example_temp_token_accepted.
Defined.

(** * Further properties *)

(** ** The temporary token, from the login page to the login *)

Section handshake.
Context `{Environment}.

(** X1. The login page stores the drawn string and hands it to the
    template; whatever the store held under that string before, the token
    then verifies from the address the page was served to exactly until
    five minutes after the page was served, that instant included. *)
Theorem page_token_lives_five_minutes s now drawn request now' :
  let served := (create_temp_token now drawn (client_host request) s).2 in
  main.login_page now drawn request s = (Ret drawn, served)
  ∧ verify_temp_token now' drawn (client_host request) served
    = (Ret (bool_decide (now' ≤ now + timedelta_minutes 5)), served).
Proof.
  cbn zeta. split; [done|].
  unfold verify_temp_token. rewrite create_temp_token_lookup.
  cbn [t_expires_at t_used t_ip].
  replace temp_token_expiry with (timedelta_minutes 5) by done.
  destruct (Z.gtb_spec now' (now + timedelta_minutes 5)).
  - by rewrite bool_decide_eq_false_2 by lia.
  - rewrite (bool_decide_eq_false_2 (client_host request ≠ client_host request))
      by (intros Hne; by apply Hne).
    by rewrite bool_decide_eq_true_2 by lia.
Qed.

Lemma logged_in_registry now temp_token token_data ip s :
  active_tokens (logged_in now temp_token token_data ip s)
  = <[jws_sign (refresh_claims now token_data ip) REFRESH_SECRET_KEY :=
        mkActiveRecord (schemas.empid token_data) ip
          (PInt (timegm (now + refresh_token_expiry))) now]>
      (<[jws_sign (access_payload now token_data ip) SECRET_KEY :=
           mkActiveRecord (schemas.empid token_data) ip
             (PInt (int_timestamp
                      (now + timedelta_minutes ACCESS_TOKEN_EXPIRE_MINUTES)))
             now]> (active_tokens s)).
Proof.
  unfold logged_in. rewrite create_refresh_token_eq, create_access_token_eq.
  cbn [snd active_tokens]. f_equal. f_equal. unfold mark_temp_token_used.
  by case_match.
Qed.

Lemma logged_in_temp now temp_token token_data ip s :
  temp_token_store (logged_in now temp_token token_data ip s)
  = temp_token_store (mark_temp_token_used temp_token s).2.
Proof.
  unfold logged_in.
  by rewrite create_refresh_token_temp, create_access_token_temp.
Qed.

(** X2. A login from the address the page was served to, within the five
    minutes, with the page's token and credentials that authenticate,
    succeeds: both tokens it returns are registered for that address and for
    the user's [empid], the temporary token is now used, and no other
    temporary token has changed. *)
Theorem page_token_opens_a_login s now drawn ip now' login_data db token_data :
  now' ≤ now + timedelta_minutes 5 →
  schemas.login_temp_token login_data = drawn →
  authenticate_user db (schemas.login_username login_data)
    (schemas.login_password login_data) = Ret token_data →
  ∃ tokens s',
    login now' login_data db ip (create_temp_token now drawn ip s).2
    = (Ret tokens, s')
    ∧ (∃ entry, active_tokens s' !! schemas.access_token tokens = Some entry
                ∧ a_ip entry = ip ∧ a_empid entry = schemas.empid token_data)
    ∧ (∃ entry, active_tokens s' !! schemas.refresh_token tokens = Some entry
                ∧ a_ip entry = ip ∧ a_empid entry = schemas.empid token_data)
    ∧ temp_token_store s' !! drawn
      = Some (mkTempRecord (now + timedelta_minutes 5) true ip)
    ∧ ∀ other, other ≠ drawn →
        temp_token_store s' !! other = temp_token_store s !! other.
Proof.
  intros Hfresh Hdrawn Hauth.
  set (served := (create_temp_token now drawn ip s).2).
  assert (temp_token_store served !! drawn
          = Some (mkTempRecord (now + timedelta_minutes 5) false ip)) as Hserved
    by apply create_temp_token_lookup.
  assert (verify_temp_token now' (schemas.login_temp_token login_data) ip served
          = (Ret true, served)) as Hvalid.
  { rewrite Hdrawn. apply verify_temp_token_true. eexists. split; [done|].
    cbn [t_expires_at t_used t_ip]. split_and!; [lia|done..]. }
  eexists _, _. split; [by apply login_accepted|].
  cbn [schemas.access_token schemas.refresh_token].
  rewrite logged_in_registry, logged_in_temp, Hdrawn. split_and!.
  - destruct (decide (jws_sign (refresh_claims now' token_data ip) REFRESH_SECRET_KEY
                      = jws_sign (access_payload now' token_data ip) SECRET_KEY))
      as [->|Hne].
    + rewrite lookup_insert_eq. eauto.
    + rewrite lookup_insert_ne, lookup_insert_eq by done. eauto.
  - rewrite lookup_insert_eq. eauto.
  - by rewrite (mark_temp_token_used_lookup _ _ _ Hserved).
  - intros other Hne. unfold mark_temp_token_used. rewrite Hserved.
    cbn [snd temp_token_store]. rewrite lookup_insert_ne by done.
    unfold served, create_temp_token. cbn [snd temp_token_store].
    by rewrite lookup_insert_ne.
Qed.

Lemma mark_temp_token_used_known token s r :
  temp_token_store s !! token = Some r →
  mark_temp_token_used token s
  = (Ret (),
     mkStores (<[token := mkTempRecord (t_expires_at r) true (t_ip r)]>
                 (temp_token_store s))
              (active_tokens s)).
Proof. intros Hr. unfold mark_temp_token_used. by rewrite Hr. Qed.

Lemma mark_temp_token_used_unknown token s :
  temp_token_store s !! token = None → mark_temp_token_used token s = (Ret (), s).
Proof. intros Hr. unfold mark_temp_token_used. by rewrite Hr. Qed.

(** X3. Consuming a temporary token is final and idempotent: once marked,
    the token is refused by [verify_temp_token] at every instant and from
    every address; marking it again, or marking a string that is not in the
    store, changes nothing; and marking touches no other temporary token and
    no registered token. *)
Theorem used_temp_token_stays_used s token :
  let marked := (mark_temp_token_used token s).2 in
  (∀ now ip, verify_temp_token now token ip marked = (Ret false, marked))
  ∧ mark_temp_token_used token marked = (Ret (), marked)
  ∧ (temp_token_store s !! token = None → marked = s)
  ∧ (∀ other, other ≠ token →
       temp_token_store marked !! other = temp_token_store s !! other)
  ∧ active_tokens marked = active_tokens s.
Proof.
  cbn zeta. destruct (temp_token_store s !! token) as [r|] eqn:Hr.
  - rewrite (mark_temp_token_used_known _ _ r) by done. cbn [snd].
    set (marked := mkStores _ _).
    assert (temp_token_store marked !! token
            = Some (mkTempRecord (t_expires_at r) true (t_ip r))) as Hmarked
      by apply lookup_insert_eq.
    split_and!; [| |done| |done].
    + intros now ip. by eapply verify_temp_token_used.
    + rewrite (mark_temp_token_used_known _ _ _ Hmarked).
      unfold marked. cbn [temp_token_store active_tokens t_expires_at t_ip].
      by rewrite insert_insert_eq.
    + intros other Hne. unfold marked. cbn [temp_token_store].
      by rewrite lookup_insert_ne.
  - rewrite (mark_temp_token_used_unknown _ _ Hr). cbn [snd].
    split_and!; [|by apply mark_temp_token_used_unknown|done..].
    intros now ip. unfold verify_temp_token. by rewrite Hr.
Qed.

End handshake.

Lemma page_token_opens_a_login_witness :
  ∃ tokens s',
    login (example.t0 + example.second) example.good_login example.db example.office
      (create_temp_token example.t0 example.temp example.office startup).2
    = (Ret tokens, s')
    ∧ temp_token_store s' !! example.temp
      = Some (mkTempRecord (example.t0 + timedelta_minutes 5) true example.office).
Proof.
  destruct (page_token_opens_a_login startup example.t0 example.temp example.office
              (example.t0 + example.second) example.good_login example.db
              example.alice_data)
    as (tokens & s' & Hlogin & _ & _ & Hused & _).
  - vm_compute. discriminate.
  - reflexivity.
  - vm_compute. reflexivity.
  - exists tokens, s'. by split.
Defined.

(** ** The sweep *)

Section sweep.
Context `{Environment}.

Lemma cleanup_pass_temp now s token entry :
  temp_token_store (cleanup_pass now s).2 !! token = Some entry
  ↔ temp_token_store s !! token = Some entry ∧ ¬ temp_expired now entry.
Proof.
  unfold cleanup_pass.
  destruct (expired_active now (map_to_list (active_tokens s)));
    cbn [snd temp_token_store]; rewrite foldl_delete_lookup.
  all: destruct (decide (token ∈ expired_temp now s)) as [Hin|Hnot].
  all: try (apply elem_of_expired_temp in Hin as (entry' & Hentry' & Hexp);
            split; [done|]; intros [Hentry Hlive]; by simplify_eq).
  all: split; [|by intros [? _]]; intros Hentry; split; [done|];
       intros Hexp; apply Hnot, elem_of_expired_temp; eauto.
Qed.

(** X4. Whatever the registry holds, and whether or not the pass goes on to
    complete, a pass of the sweep at [now] removes no temporary token that
    [verify_temp_token] accepts at [now]: the verdict [True] before the pass
    is the verdict after it, for every token and address; and every
    temporary token the pass leaves expires at [now] or later. *)
Theorem sweep_spares_valid_temp_tokens s now :
  (∀ token ip,
     verify_temp_token now token ip s = (Ret true, s) →
     verify_temp_token now token ip (cleanup_pass now s).2
     = (Ret true, (cleanup_pass now s).2))
  ∧ (∀ token entry,
       temp_token_store (cleanup_pass now s).2 !! token = Some entry →
       now ≤ t_expires_at entry).
Proof.
  split.
  - intros token ip (r & Hr & Hlive & Hunused & Hip)%verify_temp_token_true.
    apply verify_temp_token_true. exists r. split; [|done].
    apply cleanup_pass_temp. split; [done|]. unfold temp_expired. lia.
  - intros token entry [_ Hlive]%cleanup_pass_temp. unfold temp_expired in Hlive.
    lia.
Qed.

Lemma gmap_eq_Some `{Countable K} {V} (m1 m2 : gmap K V) :
  (∀ k v, m1 !! k = Some v ↔ m2 !! k = Some v) → m1 = m2.
Proof.
  intros Hiff. apply map_eq. intros k.
  destruct (m1 !! k) as [v|] eqn:H1.
  - symmetry. by apply Hiff.
  - destruct (m2 !! k) as [v|] eqn:H2; [|done].
    apply Hiff in H2. congruence.
Qed.

Lemma cleanup_pass_reachable now s :
  reachable s →
  ∃ s', cleanup_pass now s = (Ret (), s') ∧ reachable s'
        ∧ (∀ token entry,
             temp_token_store s' !! token = Some entry
             ↔ temp_token_store s !! token = Some entry ∧ ¬ temp_expired now entry)
        ∧ (∀ token entry,
             active_tokens s' !! token = Some entry
             ↔ active_tokens s !! token = Some entry ∧ ¬ active_expired now entry).
Proof.
  intros Hs.
  destruct (cleanup_pass_integers now s) as (s' & Hpass & Htemp & Hactive).
  { by apply minted_registry_integer_expiries, reachable_minted_registry. }
  exists s'. split_and!; [done| |done..].
  replace s' with (after (CleanupPass now) s) by (cbn [after]; by rewrite Hpass).
  by apply reachable_call.
Qed.

(** X5. The sweep is idempotent and monotone in time: in a reachable store,
    a second pass at the same instant, or at any earlier one, completes and
    changes nothing. *)
Theorem sweep_twice_is_sweep_once s now earlier :
  reachable s →
  earlier ≤ now →
  ∃ s', cleanup_pass now s = (Ret (), s')
        ∧ cleanup_pass earlier s' = (Ret (), s').
Proof.
  intros Hs Hle.
  destruct (cleanup_pass_reachable now s Hs) as (s1 & Hpass1 & Hs1 & Htemp1 & Hact1).
  destruct (cleanup_pass_reachable earlier s1 Hs1)
    as (s2 & Hpass2 & _ & Htemp2 & Hact2).
  exists s1. split; [done|]. rewrite Hpass2. f_equal.
  destruct s1 as [temp1 act1], s2 as [temp2 act2].
  cbn [temp_token_store active_tokens] in *. f_equal.
  - apply gmap_eq_Some. intros token entry. rewrite Htemp2. split; [by intros [? _]|].
    intros Hentry. split; [done|].
    apply Htemp1 in Hentry as [_ Hlive]. unfold temp_expired in *. lia.
  - apply gmap_eq_Some. intros token entry. rewrite Hact2. split; [by intros [? _]|].
    intros Hentry. split; [done|].
    apply Hact1 in Hentry as [_ Hlive]. unfold active_expired in *.
    intros (n & Hn & Hlt). apply Hlive. exists n. split; [done|lia].
Qed.

End sweep.

Lemma sweep_twice_is_sweep_once_witness :
  ∃ s', cleanup_pass (example.t0 + 1000 * example.second) example.signed_in
        = (Ret (), s')
        ∧ cleanup_pass (example.t0 + 1000 * example.second) s' = (Ret (), s').
Proof.
  apply (sweep_twice_is_sweep_once example.signed_in
           (example.t0 + 1000 * example.second)
           (example.t0 + 1000 * example.second) example_signed_in_reachable).
  vm_compute. discriminate.
Defined.

Section sweep_loop.
Context `{Environment}.

Lemma cleanup_pass_after_earlier_pass s earlier now :
  reachable s →
  earlier ≤ now →
  cleanup_pass now (cleanup_pass earlier s).2 = cleanup_pass now s.
Proof.
  intros Hs Hle.
  destruct (cleanup_pass_reachable earlier s Hs)
    as (s1 & Hpass1 & Hs1 & Htemp1 & Hact1).
  destruct (cleanup_pass_reachable now s1 Hs1) as (s2 & Hpass2 & _ & Htemp2 & Hact2).
  destruct (cleanup_pass_reachable now s Hs) as (s3 & Hpass3 & _ & Htemp3 & Hact3).
  rewrite Hpass1. cbn [snd]. rewrite Hpass2, Hpass3. f_equal.
  destruct s2 as [temp2 act2], s3 as [temp3 act3].
  cbn [temp_token_store active_tokens] in *. f_equal.
  - apply gmap_eq_Some. intros token entry.
    rewrite Htemp2, Htemp3, Htemp1. unfold temp_expired. split.
    + by intros [[? _] ?].
    + intros [? ?]. split_and!; [done|lia|done].
  - apply gmap_eq_Some. intros token entry.
    rewrite Hact2, Hact3, Hact1. unfold active_expired. split.
    + by intros [[? _] ?].
    + intros [? Hlive]. split_and!; [done| |done].
      intros (n & Hn & Hlt). apply Hlive. exists n. split; [done|lia].
Qed.

(** X6. The background loop never dies and does no more than its last
    pass: in a reachable store, woken at any instants none of which is later
    than the last one, the loop completes every pass, and the stores it
    leaves are those of a single pass at the last instant. *)
Theorem sweep_loop_is_its_last_pass s wakeups last :
  reachable s →
  Forall (λ wakeup, wakeup ≤ last) wakeups →
  ∃ s', cleanup_expired_tokens (wakeups ++ [last]) s = (Ret (), s')
        ∧ cleanup_pass last s = (Ret (), s').
Proof.
  intros Hs Hbefore. revert s Hs.
  induction Hbefore as [|wakeup wakeups Hle _ IH]; intros s Hs.
  - destruct (cleanup_pass_reachable last s Hs) as (s' & Hpass & _).
    exists s'. split; [|done]. cbn. unfold bindM, retM. by rewrite Hpass.
  - destruct (cleanup_pass_reachable wakeup s Hs) as (s1 & Hpass1 & Hs1 & _).
    destruct (IH s1 Hs1) as (s' & Hloop & Hlast).
    exists s'. split.
    + cbn. unfold bindM at 1. by rewrite Hpass1.
    + rewrite <- (cleanup_pass_after_earlier_pass s wakeup last) by done.
      by rewrite Hpass1.
Qed.

End sweep_loop.

Lemma sweep_loop_is_its_last_pass_witness :
  ∃ s',
    cleanup_expired_tokens
      [example.t0 + 100 * example.second; example.t0 + 1000 * example.second]
      example.signed_in
    = (Ret (), s')
    ∧ cleanup_pass (example.t0 + 1000 * example.second) example.signed_in
      = (Ret (), s').
Proof.
  apply (sweep_loop_is_its_last_pass example.signed_in
           [example.t0 + 100 * example.second]
           (example.t0 + 1000 * example.second) example_signed_in_reachable).
  repeat constructor. vm_compute. discriminate.
Defined.

(** ** Expiry: the token against its registry entry *)

Section expiry.
Context `{Environment}.

(** X7. In a reachable store the registry records, for every token, the
    expiry the token itself carries: whatever a registered token decodes to
    has as its "exp" claim the [exp] of the registry entry. So a pass of the
    sweep removes an entry at an instant exactly when the validation routine
    would report that token expired at that instant. *)
Theorem registry_expiry_is_the_token_expiry s now token key (claims : payload) entry :
  reachable s →
  active_tokens s !! token = Some entry →
  jwt_decode now token key = Ret claims →
  claims !! "exp" = Some (a_exp entry)
  ∧ ∀ at_instant ip kind,
      claims !! "type" = Some (PStr kind) →
      (active_expired at_instant entry
       ↔ _validate_token_payload at_instant claims ip kind
         = Raise (JWTError "Token expired")).
Proof.
  intros Hs%reachable_minted_registry Hentry Hdecode.
  assert (∃ n, claims !! "exp" = Some (PInt n) ∧ a_exp entry = PInt n)
    as (n & Hexp & Hn).
  { destruct (Hs token entry Hentry) as (t & token_data & ip & [[-> ->]|[-> ->]]).
    - destruct (decide (SECRET_KEY = key)) as [<-|Hne].
      + destruct (jwt_decode_sign now (access_payload t token_data ip) SECRET_KEY)
          as [Hret|[msg Hraise]]; [|congruence].
        rewrite Hret in Hdecode. simplify_eq. eexists. split; [|done].
        apply access_payload_exp.
      + destruct (jwt_decode_other_key now (access_payload t token_data ip)
                    SECRET_KEY key Hne) as [msg Hraise]. congruence.
    - destruct (decide (REFRESH_SECRET_KEY = key)) as [<-|Hne].
      + destruct (jwt_decode_sign now (refresh_claims t token_data ip)
                    REFRESH_SECRET_KEY) as [Hret|[msg Hraise]]; [|congruence].
        rewrite Hret in Hdecode. simplify_eq. eexists. split; [|done].
        apply refresh_claims_exp.
      + destruct (jwt_decode_other_key now (refresh_claims t token_data ip)
                    REFRESH_SECRET_KEY key Hne) as [msg Hraise]. congruence. }
  split; [by rewrite Hexp, Hn|].
  intros at_instant ip kind Hkind.
  rewrite (validate_as_specified _ _ n) by done.
  unfold four_checks, active_expired. cbn [first_failure].
  rewrite (bool_decide_eq_false_2 (claims !! "type" ≠ Some (PStr kind)))
    by (intros Hne; by apply Hne).
  rewrite Hn. split.
  - intros (n' & [= <-] & Hlt). by rewrite bool_decide_eq_true_2 by lia.
  - intros Hexpired. exists n. split; [done|].
    destruct (decide (at_instant > fromtimestamp n)) as [Hgt|Hle]; [lia|].
    rewrite (bool_decide_eq_false_2 (at_instant > fromtimestamp n)) in Hexpired
      by done.
    repeat case_match; discriminate.
Qed.

(** X8. How long a minted token stays in the registry. An access token
    minted at [now] (an instant not before the epoch of the host's local
    clock) survives every pass of the sweep up to 899 seconds later and is
    removed by any pass more than 900 seconds later, whatever the host's
    time zone. The entry of a refresh token minted at [now] survives every
    pass up to seven days less one second, plus the host's offset from UTC,
    later, and is removed by any pass more than seven days plus that offset
    later: the expiry recorded is seconds since the epoch in UTC, and the
    sweep reads it back as local time. *)
Theorem minted_tokens_leave_the_registry_on_time
    s now token_data ip pass :
  reachable s →
  utcoffset ≤ now →
  let issued := create_access_token now token_data ip s in
  let reissued := create_refresh_token now token_data ip s in
  ∃ access refresh,
    issued.1 = Ret access ∧ reissued.1 = Ret refresh
    ∧ (pass ≤ now + 899 * 1000000 →
       is_Some (active_tokens (cleanup_pass pass issued.2).2 !! access))
    ∧ (now + 900 * 1000000 < pass →
       active_tokens (cleanup_pass pass issued.2).2 !! access = None)
    ∧ (pass ≤ now + (7 * 86400 - 1) * 1000000 + utcoffset →
       is_Some (active_tokens (cleanup_pass pass reissued.2).2 !! refresh))
    ∧ (now + 7 * 86400 * 1000000 + utcoffset < pass →
       active_tokens (cleanup_pass pass reissued.2).2 !! refresh = None).
Proof.
  intros Hs Hepoch. cbn zeta.
  assert (reachable (create_access_token now token_data ip s).2) as Hs1
    by apply (reachable_call (CreateAccessToken now token_data ip) s Hs).
  assert (reachable (create_refresh_token now token_data ip s).2) as Hs2
    by apply (reachable_call (CreateRefreshToken now token_data ip) s Hs).
  destruct (cleanup_pass_reachable pass _ Hs1) as (s1 & Hpass1 & _ & _ & Hact1).
  destruct (cleanup_pass_reachable pass _ Hs2) as (s2 & Hpass2 & _ & _ & Hact2).
  rewrite Hpass1, Hpass2. clear Hpass1 Hpass2 Hs1 Hs2.
  rewrite create_access_token_eq in *. rewrite create_refresh_token_eq in *.
  cbn [fst snd active_tokens] in *. eexists _, _. split_and!; [done..| | | |].
  - intros Hpass. eexists. apply Hact1. rewrite lookup_insert_eq. split; [done|].
    intros (n & [= <-] & Hlt). revert Hlt.
    unfold fromtimestamp, int_timestamp, timedelta_minutes,
      ACCESS_TOKEN_EXPIRE_MINUTES.
    rewrite Z.quot_div_nonneg by lia. Z.div_mod_to_equations. lia.
  - intros Hpass.
    destruct (active_tokens s1 !! _) as [entry|] eqn:Hentry; [|done].
    apply Hact1 in Hentry as [Hentry Hlive]. exfalso. apply Hlive.
    rewrite lookup_insert_eq in Hentry. simplify_eq. eexists. split; [done|].
    unfold fromtimestamp, int_timestamp, timedelta_minutes,
      ACCESS_TOKEN_EXPIRE_MINUTES.
    rewrite Z.quot_div_nonneg by lia. Z.div_mod_to_equations. lia.
  - intros Hpass. eexists. apply Hact2. rewrite lookup_insert_eq. split; [done|].
    intros (n & [= <-] & Hlt). revert Hlt.
    unfold fromtimestamp, timegm, refresh_token_expiry, timedelta_days,
      REFRESH_TOKEN_EXPIRE_DAYS.
    Z.div_mod_to_equations. lia.
  - intros Hpass.
    destruct (active_tokens s2 !! _) as [entry|] eqn:Hentry; [|done].
    apply Hact2 in Hentry as [Hentry Hlive]. exfalso. apply Hlive.
    rewrite lookup_insert_eq in Hentry. simplify_eq. eexists. split; [done|].
    unfold fromtimestamp, timegm, refresh_token_expiry, timedelta_days,
      REFRESH_TOKEN_EXPIRE_DAYS.
    Z.div_mod_to_equations. lia.
Qed.

End expiry.

Lemma example_refresh_token_entry :
  active_tokens example.signed_in !! schemas.refresh_token example.session_tokens
  = Some (mkActiveRecord 7 example.office
            (PInt (timegm (example.t0 + example.second + refresh_token_expiry)))
            (example.t0 + example.second)).
Proof.
  unfold example.signed_in. rewrite logged_in_registry. apply lookup_insert_eq.
Qed.

Lemma registry_expiry_is_the_token_expiry_witness :
  refresh_claims (example.t0 + example.second) example.alice_data example.office
    !! "exp"
  = Some (PInt (timegm (example.t0 + example.second + refresh_token_expiry))).
Proof.
  refine (proj1 (registry_expiry_is_the_token_expiry example.signed_in
                   (example.t0 + 2 * example.second)
                   (schemas.refresh_token example.session_tokens)
                   REFRESH_SECRET_KEY
                   (refresh_claims (example.t0 + example.second) example.alice_data
                      example.office)
                   _ example_signed_in_reachable example_refresh_token_entry _)).
  vm_compute. reflexivity.
Defined.

(** On a host eight hours west of UTC, the entry of a refresh token minted
    at [t0] is swept six days and seventeen hours later. *)
Lemma minted_tokens_leave_the_registry_on_time_witness :
  ∃ refresh,
    (@create_refresh_token example.west example.t0 example.alice_data
       example.office startup).1
    = Ret refresh
    ∧ active_tokens
        (cleanup_pass (example.t0 + (6 * 24 + 17) * 3600 * example.second)
           (@create_refresh_token example.west example.t0 example.alice_data
              example.office startup).2).2 !! refresh
      = None.
Proof.
  destruct (@minted_tokens_leave_the_registry_on_time example.west startup
              example.t0 example.alice_data example.office
              (example.t0 + (6 * 24 + 17) * 3600 * example.second)
              reachable_startup)
    as (access & refresh & _ & Hrefresh & _ & _ & _ & Hgone).
  - vm_compute. discriminate.
  - exists refresh. split; [exact Hrefresh|]. apply Hgone. vm_compute. reflexivity.
Defined.

(** ** Who gets in *)

Section admission.
Context `{Environment}.

(** Every [HTTPException] that leaves [get_current_user] is a 401. *)
Lemma get_current_user_raises_only_401 now request s c d request' s' :
  get_current_user now request s = (Raise (HTTPException c d), request', s') →
  c = 401.
Proof.
  unfold get_current_user, unauthenticated.
  destruct (cookies request !! "access_token") as [token|]; [|by intros [= <-]].
  destruct (verify_access_token now token (client_host request) s) as [[td|e] s1];
    [done|].
  destruct e; try done.
  destruct (cookies request !! "refresh_token") as [refresh|]; [|by intros [= <-]].
  destruct (refresh_token now refresh (client_host request) s1) as [[new|e] s2].
  - cbn zeta. cbn [client_host].
    destruct (verify_access_token now (schemas.access_token new)
                (client_host request) s2) as [[td|e] s3]; [done|].
    destruct e; try done. by intros [= <-].
  - destruct e; try done. by intros [= <-].
Qed.

(** X9. The role gate is exact and opens for no one. Whenever
    [require_role] returns a user, [get_current_user] returned that user and
    the user's role is the required string itself: no role stands in for
    another. A user with any other role gets the 403; every failure of
    [get_current_user] comes through unchanged and is never the 403. The
    gate of dependencies.py decides the same way on its own
    [get_current_user]: it returns the same user, request and stores, and
    raises the same exception but for the detail of an [HTTPException],
    which it gives as the bare string where auth.py gives the
    [ErrorResponse] dictionary. And in a reachable store the gate raises for
    every request, with the request and the stores unchanged, and what it
    raises is never the 403. *)
Theorem require_role_is_exact_and_never_opens required now request s :
  (∀ user request' s',
     require_role required now request s = (Ret user, request', s') →
     get_current_user now request s = (Ret user, request', s')
     ∧ schemas.role user = required)
  ∧ (∀ user request' s',
       get_current_user now request s = (Ret user, request', s') →
       schemas.role user ≠ required →
       require_role required now request s
       = (Raise
           (HTTPException 403
              (ErrorResponse_dict 403 "Insufficient permissions")), request', s'))
  ∧ (∀ e request' s',
       get_current_user now request s = (Raise e, request', s') →
       require_role required now request s = (Raise e, request', s')
       ∧ response_status e ≠ 403)
  ∧ dependencies.require_role required now request s
    = match require_role required now request s with
      | (Raise e, request', s') => (Raise (bare_detail e), request', s')
      | answer => answer
      end
  ∧ (reachable s →
     ∃ e, require_role required now request s = (Raise e, request, s)
          ∧ response_status e ≠ 403).
Proof.
  assert (∀ e request' s',
            get_current_user now request s = (Raise e, request', s') →
            response_status e ≠ 403) as Hnot403.
  { intros e request' s' Hraise. destruct e; try done.
    apply get_current_user_raises_only_401 in Hraise as ->. done. }
  split_and!.
  - intros user request' s'. unfold require_role.
    destruct (get_current_user now request s) as [[[u|e] r1] s1]; [|done].
    case_bool_decide as Hrole; [done|]. intros [= <- <- <-].
    split; [done|]. by destruct (decide (schemas.role u = required)).
  - intros user request' s' Huser Hrole. unfold require_role. rewrite Huser.
    by rewrite bool_decide_eq_true_2.
  - intros e request' s' Hraise. split; [|by eapply Hnot403].
    unfold require_role. by rewrite Hraise.
  - apply dependencies_require_role.
  - intros Hs. destruct (reachable_get_current_user_raises s now request Hs)
      as [e Hraise].
    exists e. split; [|by eapply Hnot403].
    unfold require_role. by rewrite Hraise.
Qed.

(** X10. Revoking one token leaves every other token as it was: the
    outcome of verifying another token, as an access or as a refresh token,
    is the same before and after, at every instant and from every address;
    and a second revocation of the same token finds nothing and changes
    nothing. *)
Theorem revocation_touches_one_token s revoked other :
  other ≠ revoked →
  let s' := (revoke_token revoked s).2 in
  (∀ now ip,
     (verify_access_token now other ip s').1 = (verify_access_token now other ip s).1
     ∧ (verify_refresh_token now other ip s').1
       = (verify_refresh_token now other ip s).1)
  ∧ active_tokens s' !! other = active_tokens s !! other
  ∧ revoke_token revoked s' = (Ret false, s').
Proof.
  intros Hne. cbn zeta.
  assert (active_tokens (revoke_token revoked s).2 !! other
          = active_tokens s !! other) as Hother.
  { unfold revoke_token. case_match; [|done].
    cbn [snd active_tokens]. by apply lookup_delete_ne. }
  assert (active_tokens (revoke_token revoked s).2 !! revoked = None) as Hgone.
  { unfold revoke_token. case_match eqn:Hentry; [|done].
    cbn [snd active_tokens]. apply lookup_delete_eq. }
  split_and!; [|done|].
  - intros now ip. unfold verify_access_token, verify_refresh_token.
    rewrite Hother. by destruct (active_tokens s !! other).
  - unfold revoke_token at 1. by rewrite Hgone.
Qed.

End admission.

Lemma require_role_is_exact_and_never_opens_witness :
  ∃ e, require_role "admin" (example.t0 + 2 * example.second) example.request
         example.signed_in
       = (Raise e, example.request, example.signed_in)
       ∧ response_status e ≠ 403.
Proof.
  exact (proj2 (proj2 (proj2 (proj2
           (require_role_is_exact_and_never_opens "admin"
              (example.t0 + 2 * example.second) example.request
              example.signed_in))))
           example_signed_in_reachable).
Defined.

Lemma revocation_touches_one_token_witness :
  active_tokens
    (revoke_token (schemas.access_token example.session_tokens) example.signed_in).2
    !! schemas.refresh_token example.session_tokens
  = active_tokens example.signed_in !! schemas.refresh_token example.session_tokens.
Proof.
  refine (proj1 (proj2 (revocation_touches_one_token example.signed_in
                          (schemas.access_token example.session_tokens)
                          (schemas.refresh_token example.session_tokens) _))).
  vm_compute. discriminate.
Defined.

Section nobody.
Context `{Environment}.

(** X11. No request is ever authenticated. In a reachable store, for every
    request, instant, token and address: both verifications raise, a refresh
    raises and mints nothing, and [get_current_user] (of auth.py and of
    dependencies.py alike, the latter with its detail as a bare string)
    raises, leaving the request and the stores as they were; what the
    dependency raises is answered with a 401 or, when it is not an
    [HTTPException], as an unhandled error. *)
Theorem nobody_is_authenticated s now request :
  reachable s →
  (∀ token ip, ∃ e, verify_access_token now token ip s = (Raise e, s))
  ∧ (∀ token ip, ∃ e, verify_refresh_token now token ip s = (Raise e, s))
  ∧ (∀ refresh ip, ∃ e, refresh_token now refresh ip s = (Raise e, s))
  ∧ ∃ e, get_current_user now request s = (Raise e, request, s)
         ∧ dependencies.get_current_user now request s
           = (Raise (bare_detail e), request, s)
         ∧ (response_status e = 401 ∨ response_status e = 500)
         ∧ response_status (bare_detail e) = response_status e.
Proof.
  intros Hs. split_and!.
  - intros token ip. by destruct (reachable_verification_raises s now token ip Hs).
  - intros token ip. by destruct (reachable_verification_raises s now token ip Hs).
  - intros refresh ip. by apply reachable_refresh_raises.
  - destruct (reachable_get_current_user_raises s now request Hs) as [e Hraise].
    exists e. split_and!; [done| | |apply response_status_bare_detail].
    { by rewrite dependencies_get_current_user, Hraise. }
    destruct e; try by right.
    apply get_current_user_raises_only_401 in Hraise as ->. by left.
Qed.

End nobody.

Lemma nobody_is_authenticated_witness :
  ∃ e, get_current_user (example.t0 + 2 * example.second) example.request
         example.signed_in
       = (Raise e, example.request, example.signed_in).
Proof.
  destruct (nobody_is_authenticated example.signed_in
              (example.t0 + 2 * example.second) example.request
              example_signed_in_reachable) as (_ & _ & _ & e & Hraise & _).
  by exists e.
Defined.

(** ** main.py: the middleware *)

Section middleware.
Context `{Environment}.

Lemma prefix_of_rooted first (public path : string) :
  String.prefix (String first "") path = false →
  String.prefix (String first public) path = false.
Proof.
  destruct path as [|c path]; [done|]. simpl.
  destruct (Ascii.ascii_dec first c); [|done]. by destruct path.
Qed.

(** X12. The middleware's test for a public path is no test: a path is
    public exactly when it begins with "/", the first entry of
    [PUBLIC_PATHS] being a prefix of every such path. So every request whose
    path begins with "/" is handed to the rest of the application as it is:
    no cookie is read, no token verified, no temporary token issued, no
    security header added, and the stores are untouched. *)
Theorem every_rooted_path_is_public now drawn path url request s :
  existsb (λ public, String.prefix public path) main.PUBLIC_PATHS
  = String.prefix "/" path
  ∧ (String.prefix "/" path = true →
     main.security_middleware now drawn path url request s
     = (Ret (main.call_next None false), s)).
Proof.
  assert (existsb (λ public, String.prefix public path) main.PUBLIC_PATHS
          = String.prefix "/" path) as Hpublic.
  { unfold main.PUBLIC_PATHS. cbn [existsb].
    destruct (String.prefix "/" path) eqn:Hrooted; [done|].
    by rewrite !prefix_of_rooted. }
  split; [done|]. intros Hrooted.
  unfold main.security_middleware. by rewrite Hpublic, Hrooted.
Qed.

End middleware.

Lemma every_rooted_path_is_public_witness :
  main.security_middleware (example.t0 + 2 * example.second) "never-drawn"
    "/employees/7" "https://timesheet.example/employees/7"
    (mkRequest ∅ example.cafe) example.signed_in
  = (Ret (main.call_next None false), example.signed_in).
Proof.
  apply every_rooted_path_is_public. reflexivity.
Defined.

(** ** main.py: the password reset *)

Section password_reset.

Lemma otp_step (now : datetime) (drawn client_ip email otp : string)
    (new_password confirm_password : option string)
    (data : gmap string main.ResetRecord) :
  otp ≠ "" →
  main.given new_password = false →
  ∃ page,
    main.handle_password_reset now drawn client_ip email (Some otp) new_password
      confirm_password data
    = (main.TemplateResponse page, data)
    ∧ main.page_success page = false
    ∧ (main.page_show_password page = true
       ↔ ∃ stored, data !! email = Some stored
                   ∧ ¬ now > main.r_expires_at stored
                   ∧ main.r_otp stored = otp).
Proof.
  intros Hotp Hnew. unfold main.handle_password_reset.
  assert (main.given (Some otp) = true) as ->.
  { unfold main.given. by destruct (String.eqb_spec otp ""). }
  rewrite Hnew. cbn [negb andb].
  destruct (data !! email) as [stored|] eqn:Hstored.
  - destruct (Z.gtb_spec now (main.r_expires_at stored)) as [Hgt|Hle].
    { eexists. split_and!; [done..|]. cbn. split; [done|].
      intros (stored' & [= <-] & Hlive & _). lia. }
    case_bool_decide as Hsame.
    + eexists. split_and!; [done..|]. cbn. split; [done|].
      intros (stored' & [= <-] & _ & Heq). congruence.
    + eexists. split_and!; [done..|]. cbn. split; [|done]. intros _.
      exists stored. split_and!; [done|lia|].
      destruct (decide (main.r_otp stored = otp)); [done|]. congruence.
  - eexists. split_and!; [done..|]. cbn. split; [done|].
    by intros (stored' & [=] & _).
Qed.

(** X13. The one-time password is accepted exactly when the store holds, for
    that e-mail address, an entry that has not expired and whose password is
    the one submitted. The check reads the store and changes nothing, so an
    accepted password is accepted again; and the caller's address plays no
    part, although the store records one: the answer is the same from every
    address. *)
Theorem otp_is_accepted_exactly (now : datetime)
    (drawn client_ip email otp : string)
    (new_password confirm_password : option string)
    (data : gmap string main.ResetRecord) :
  otp ≠ "" →
  main.given new_password = false →
  ∃ page,
    (∀ other_ip other_drawn other_confirm,
       main.handle_password_reset now other_drawn other_ip email (Some otp)
         new_password other_confirm data
       = (main.TemplateResponse page, data))
    ∧ (main.page_show_password page = true
       ↔ ∃ stored, data !! email = Some stored
                   ∧ ¬ now > main.r_expires_at stored
                   ∧ main.r_otp stored = otp).
Proof.
  intros Hotp Hnew.
  destruct (otp_step now drawn client_ip email otp new_password confirm_password
              data Hotp Hnew) as (page & Hpage & _ & Hiff).
  exists page. split; [|done]. intros other_ip other_drawn other_confirm.
  rewrite <- Hpage. unfold main.handle_password_reset.
  assert (main.given (Some otp) = true) as ->.
  { unfold main.given. by destruct (String.eqb_spec otp ""). }
  by rewrite Hnew.
Qed.

(** X14. Asking for a one-time password replaces the one before. A request
    without a password stores the drawn digits for the e-mail address, good
    for ten minutes, and touches no other address's entry; from then on the
    password accepted for that address is the drawn one and no other, from
    any address, until ten minutes have passed, and none after. *)
Theorem otp_request_replaces_the_previous (now : datetime)
    (drawn client_ip email : string)
    (otp new_password confirm_password : option string)
    (data : gmap string main.ResetRecord) :
  main.given otp = false →
  main.given new_password = false →
  let requested :=
    main.handle_password_reset now drawn client_ip email otp new_password
      confirm_password data in
  requested.2
  = <[email := main.mkResetRecord drawn (now + timedelta_minutes 10) client_ip]> data
  ∧ ∀ later ip submitted,
      submitted ≠ "" →
      ∃ page,
        main.handle_password_reset later "" ip email (Some submitted) None None
          requested.2
        = (main.TemplateResponse page, requested.2)
        ∧ (main.page_show_password page = true
           ↔ submitted = drawn ∧ later ≤ now + timedelta_minutes 10).
Proof.
  intros Hotp Hnew. cbn zeta.
  assert ((main.handle_password_reset now drawn client_ip email otp new_password
             confirm_password data).2
          = <[email := main.mkResetRecord drawn (now + timedelta_minutes 10)
                         client_ip]> data) as ->.
  { unfold main.handle_password_reset. by rewrite Hotp, Hnew. }
  split; [done|]. intros later ip submitted Hsubmitted.
  destruct (otp_step later "" ip email submitted None None
              (<[email := main.mkResetRecord drawn (now + timedelta_minutes 10)
                            client_ip]> data) Hsubmitted eq_refl)
    as (page & Hpage & _ & Hiff).
  exists page. split; [done|]. rewrite Hiff, lookup_insert_eq. split.
  - intros (stored & [= <-] & Hlive & Heq). cbn in *. split; [done|lia].
  - intros [-> Hlive]. eexists. split_and!; [done|cbn; lia|done].
Qed.

(** X15. The reset never resets. Whatever is submitted, the handler never
    renders the success page and never removes an entry of the store; once a
    new password is submitted the store is not written at all; and when the
    new password and its confirmation are given and equal, the handler
    raises [AttributeError] where it would look the user up, before any
    password is hashed or stored, whether or not a one-time password was
    ever asked for or is submitted. *)
Theorem password_reset_never_completes (now : datetime)
    (drawn client_ip email : string)
    (otp new_password confirm_password : option string)
    (data : gmap string main.ResetRecord) :
  let answer :=
    main.handle_password_reset now drawn client_ip email otp new_password
      confirm_password data in
  (∀ page, answer.1 = main.TemplateResponse page → main.page_success page = false)
  ∧ (∀ address, is_Some (data !! address) → is_Some (answer.2 !! address))
  ∧ (main.given new_password = true → answer.2 = data)
  ∧ (main.given new_password = true →
     new_password = confirm_password →
     answer.1 = main.AttributeError).
Proof.
  cbn zeta. unfold main.handle_password_reset.
  destruct (main.given otp) eqn:Hotp, (main.given new_password) eqn:Hnew;
    cbn [negb andb].
  - destruct (main.given confirm_password) eqn:Hconfirm.
    + case_bool_decide; cbn; split_and!; try done; by intros ? [= <-].
    + cbn. split_and!; try done; [by intros ? [= <-]|].
      intros _ Heq. congruence.
  - destruct (data !! email) as [stored|]; [|cbn; split_and!; try done;
                                               by intros ? [= <-]].
    destruct (now >? main.r_expires_at stored);
      [cbn; split_and!; try done; by intros ? [= <-]|].
    case_bool_decide; cbn; split_and!; try done; by intros ? [= <-].
  - destruct (main.given confirm_password) eqn:Hconfirm.
    + case_bool_decide; cbn; split_and!; try done; by intros ? [= <-].
    + cbn. split_and!; try done; [by intros ? [= <-]|].
      intros _ Heq. congruence.
  - cbn. split_and!; try done; [by intros ? [= <-]|].
    intros address Haddress. rewrite lookup_insert. by case_decide.
Qed.

End password_reset.

Lemma otp_is_accepted_exactly_witness :
  ∃ page,
    main.handle_password_reset (example.t0 + 60 * example.second) "" example.cafe
      "alice@example.com" (Some "493817") None None
      {["alice@example.com" :=
          main.mkResetRecord "493817" (example.t0 + timedelta_minutes 10)
            example.office]}
    = (main.TemplateResponse page,
       {["alice@example.com" :=
           main.mkResetRecord "493817" (example.t0 + timedelta_minutes 10)
             example.office]})
    ∧ main.page_show_password page = true.
Proof.
  destruct (otp_is_accepted_exactly (example.t0 + 60 * example.second) ""
              example.cafe "alice@example.com" "493817" None None
              {["alice@example.com" :=
                  main.mkResetRecord "493817" (example.t0 + timedelta_minutes 10)
                    example.office]})
    as (page & Hpage & Hiff); [done..|].
  exists page. split; [apply Hpage|]. apply Hiff.
  eexists. split; [apply lookup_singleton_eq|]. split; [|done].
  vm_compute. discriminate.
Defined.

Lemma otp_request_replaces_the_previous_witness :
  (main.handle_password_reset example.t0 "493817" example.office
     "alice@example.com" None None None
     {["alice@example.com" :=
         main.mkResetRecord "000000" (example.t0 - 1) example.cafe]}).2
  = {["alice@example.com" :=
        main.mkResetRecord "493817" (example.t0 + timedelta_minutes 10)
          example.office]}.
Proof.
  rewrite (proj1 (otp_request_replaces_the_previous example.t0 "493817"
                    example.office "alice@example.com" None None None _
                    eq_refl eq_refl)).
  apply insert_singleton_eq.
Defined.

Lemma password_reset_never_completes_witness :
  (main.handle_password_reset example.t0 "" example.cafe "alice@example.com" None
     (Some "chosen by a stranger") (Some "chosen by a stranger") ∅).1
  = main.AttributeError.
Proof.
  apply (password_reset_never_completes example.t0 "" example.cafe
           "alice@example.com" None (Some "chosen by a stranger")
           (Some "chosen by a stranger") ∅); reflexivity.
Defined.

(** ** The temporary token, over the life of the process *)

Section temp_invariants.
Context `{Environment}.

(** X16. A temporary token is bound to the address its page was served to,
    and an attempt from elsewhere does not spend it: a login from another
    address presenting the token is refused with the 401 for the temporary
    token at every instant, whatever the user name and password it carries
    and whatever the database holds for them (the credentials are not
    looked at), and leaves the stores as they were, so that the login from
    the rightful address, within the five minutes and with credentials that
    authenticate, still succeeds afterwards. *)
Theorem foreign_login_is_refused_and_spends_nothing
    s now drawn ip now' login_data db token_data :
  now' ≤ now + timedelta_minutes 5 →
  schemas.login_temp_token login_data = drawn →
  authenticate_user db (schemas.login_username login_data)
    (schemas.login_password login_data) = Ret token_data →
  let served := (create_temp_token now drawn ip s).2 in
  (∀ foreign at_instant attempt any_db,
     foreign ≠ ip →
     schemas.login_temp_token attempt = drawn →
     login at_instant attempt any_db foreign served
     = (Raise (HTTPException 401
                 (ErrorResponse_dict 401 "Invalid or expired temporary token")),
        served))
  ∧ ∃ tokens s', login now' login_data db ip served = (Ret tokens, s').
Proof.
  intros Hfresh Hdrawn Hauth. cbn zeta.
  assert (temp_token_store (create_temp_token now drawn ip s).2 !! drawn
          = Some (mkTempRecord (now + timedelta_minutes 5) false ip)) as Hserved
    by apply create_temp_token_lookup.
  split.
  - intros foreign at_instant attempt any_db Hforeign Hattempt.
    apply login_rejected_temp_token. rewrite Hattempt.
    unfold verify_temp_token. rewrite Hserved. cbn [t_expires_at t_used t_ip].
    destruct (at_instant >? now + timedelta_minutes 5); [done|].
    by rewrite bool_decide_eq_true_2 by done.
  - eexists _, _. apply login_accepted; [|done].
    rewrite Hdrawn. apply verify_temp_token_true. eexists. split; [done|].
    cbn [t_expires_at t_used t_ip]. split_and!; [lia|done..].
Qed.

Lemma refresh_token_temp now refresh ip s :
  temp_token_store (refresh_token now refresh ip s).2 = temp_token_store s.
Proof.
  destruct (refresh_token_cases now refresh ip s)
    as [[e ->]|(token_data & _ & ->)]; [done|].
  apply create_access_token_temp.
Qed.

Lemma get_current_user_temp now request s :
  temp_token_store (get_current_user now request s).2 = temp_token_store s.
Proof.
  destruct (get_current_user_stores now request s) as [->|[token_data ->]]; [done|].
  apply create_access_token_temp.
Qed.

(** X17. A spent temporary token is never made good again. Whatever the
    application calls next, other than issuing that very string anew, a
    temporary token recorded as used is afterwards either recorded exactly
    as it was or gone from the store (swept): no call clears the flag,
    extends the expiry or changes the address. *)
Theorem used_flag_is_never_cleared c s token record :
  temp_token_store s !! token = Some record →
  t_used record = true →
  (∀ now ip, c ≠ CreateTempToken now token ip) →
  temp_token_store (after c s) !! token = Some record
  ∨ temp_token_store (after c s) !! token = None.
Proof.
  intros Hrecord Hused Hother.
  assert (∀ marked,
            temp_token_store (mark_temp_token_used marked s).2 !! token
            = Some record) as Hmark.
  { intros marked. destruct (temp_token_store s !! marked) as [r|] eqn:Hr.
    - rewrite (mark_temp_token_used_known _ _ r) by done.
      cbn [snd temp_token_store].
      destruct (decide (marked = token)) as [->|Hne].
      + rewrite lookup_insert_eq. simplify_eq. destruct record. by simplify_eq/=.
      + by rewrite lookup_insert_ne.
    - by rewrite mark_temp_token_used_unknown. }
  destruct c; cbn [after].
  - left. unfold create_temp_token. cbn [snd temp_token_store].
    rewrite lookup_insert_ne; [done|]. intros ->. by eapply Hother.
  - left. by rewrite verify_temp_token_pure.
  - left. apply Hmark.
  - left. by rewrite create_access_token_temp.
  - left. by rewrite create_refresh_token_temp.
  - left. by rewrite verify_access_token_stores.
  - left. by rewrite verify_refresh_token_stores.
  - left.
    destruct (login_stores now login_data db client_ip s) as [->|[token_data ->]];
      [done|].
    rewrite logged_in_temp. apply Hmark.
  - left. by rewrite refresh_token_temp.
  - destruct (temp_token_store (cleanup_pass now s).2 !! token) as [r|] eqn:Hr;
      [|by right].
    left. apply cleanup_pass_temp in Hr as [Hr _]. congruence.
  - left. unfold revoke_token. by case_match.
  - left. by rewrite get_current_user_temp.
Qed.

End temp_invariants.

(** From the cafe, with a wrong password, a second after the page was
    served to the office. *)
Lemma foreign_login_is_refused_and_spends_nothing_witness :
  login (example.t0 + example.second) example.bad_login example.db example.cafe
    (create_temp_token example.t0 example.temp example.office startup).2
  = (Raise (HTTPException 401
              (ErrorResponse_dict 401 "Invalid or expired temporary token")),
     (create_temp_token example.t0 example.temp example.office startup).2).
Proof.
  refine (proj1 (foreign_login_is_refused_and_spends_nothing startup example.t0
                   example.temp example.office (example.t0 + example.second)
                   example.good_login example.db example.alice_data _ eq_refl _)
            example.cafe (example.t0 + example.second) example.bad_login
            example.db _ eq_refl).
  - vm_compute. discriminate.
  - vm_compute. reflexivity.
  - vm_compute. discriminate.
Defined.

Lemma example_temp_token_spent :
  temp_token_store example.signed_in !! example.temp
  = Some (mkTempRecord (example.t0 + timedelta_minutes 5) true example.office).
Proof.
  unfold example.signed_in. rewrite logged_in_temp.
  by rewrite (mark_temp_token_used_lookup _ _
                (mkTempRecord (example.t0 + timedelta_minutes 5) false
                   example.office))
    by apply create_temp_token_lookup.
Qed.

Lemma used_flag_is_never_cleared_witness :
  temp_token_store
    (after (Login (example.t0 + 2 * example.second) example.good_login example.db
              example.office) example.signed_in) !! example.temp
  = Some (mkTempRecord (example.t0 + timedelta_minutes 5) true example.office)
  ∨ temp_token_store
      (after (Login (example.t0 + 2 * example.second) example.good_login example.db
                example.office) example.signed_in) !! example.temp
    = None.
Proof.
  apply used_flag_is_never_cleared;
    [apply example_temp_token_spent|reflexivity|discriminate].
Defined.
